(** * MicroFlo runtime: a shallow embedding of [microflo/microflo.h] and of the
    Stellaris IO backend, with the properties its specification states.

    Layout: integer types and build constants, the constants of the absent
    [commandformat.h] as a type class, [Packet], the [IO] interface and
    [StellarisIO], [HostCommunication], [Network]; then the theorems. *)

From Stdlib Require Import ZArith List Bool Lia String Ascii.
From stdpp Require Import base list.

#[local] Open Scope Z_scope.
#[local] Set Default Proof Using "Type".

(* ===================================================================== *)
(** * Integer types                                                       *)
(* ===================================================================== *)

(** A w-bit unsigned value, and the conversion of an arbitrary integer to it
    (C++ converts modulo 2^w). *)
Definition wrap_unsigned (bits z : Z) : Z := z mod 2 ^ bits.

(** The conversion to a w-bit two's complement value. *)
Definition wrap_signed (bits z : Z) : Z :=
  (z + 2 ^ (bits - 1)) mod 2 ^ bits - 2 ^ (bits - 1).

(** [namespace MicroFlo]: [typedef uint8_t NodeId; typedef int8_t PortId;]
    [PinId] is [long] on Stellaris and [int] elsewhere; pins are only passed
    through here. *)
Abbreviation NodeId := Z (only parsing).
Abbreviation PortId := Z (only parsing).
Abbreviation PinId := Z (only parsing).

Definition NodeId_bits : Z := 8.
Definition PortId_bits : Z := 8.

Definition to_NodeId (z : Z) : NodeId := wrap_unsigned NodeId_bits z.
Definition to_PortId (z : Z) : PortId := wrap_signed PortId_bits z.

Definition is_NodeId (z : Z) : bool := (0 <=? z) && (z <=? 255).

(** Object addresses ([Component *]): the index of the object in the
    object memory.  A pointer that may be null is an [option ptr]. *)
Abbreviation ptr := nat (only parsing).

(* ===================================================================== *)
(** * Build constants                                                     *)
(* ===================================================================== *)

(** The two limits can be set on the compiler command line
    ([-DMICROFLO_NODE_LIMIT=..], [-DMICROFLO_MESSAGE_LIMIT=..]). *)
Class Build := {
  MICROFLO_NODE_LIMIT : option Z;
  MICROFLO_MESSAGE_LIMIT : option Z
}.

Definition default_build : Build :=
  {| MICROFLO_NODE_LIMIT := None; MICROFLO_MESSAGE_LIMIT := None |}.

Definition MICROFLO_MAX_PORTS : Z := 255.

Definition MICROFLO_MAX_NODES {b : Build} : Z :=
  match MICROFLO_NODE_LIMIT with Some n => n | None => 50 end.

Definition MICROFLO_MAX_MESSAGES {b : Build} : Z :=
  match MICROFLO_MESSAGE_LIMIT with Some n => n | None => 50 end.

Arguments MICROFLO_MAX_NODES : simpl never.
Arguments MICROFLO_MAX_MESSAGES : simpl never.

Definition MICROFLO_SUBGRAPH_MAXPORTS : Z := 10.

(** [const size_t MICROFLO_CMD_SIZE = 1 + 7; // cmd + payload] *)
Definition CMD_OPCODE_BYTES : Z := 1.
Definition CMD_PAYLOAD_BYTES : Z := 7.
Definition MICROFLO_CMD_SIZE : Z := CMD_OPCODE_BYTES + CMD_PAYLOAD_BYTES.

(* ===================================================================== *)
(** * The enumerations of commandformat.h                                 *)
(* ===================================================================== *)

(** [commandformat.h] declares [enum Msg], [enum DebugLevel] and
    [enum DebugId]; the header is generated and not part of the sources at
    hand, so the numeric value of every enumerator the code names is a
    parameter.  An enumeration variable is an integer: it can hold values
    that name no enumerator; the three types are names for [Z]. *)
Abbreviation Msg := Z (only parsing).
Abbreviation DebugLevel := Z (only parsing).
Abbreviation DebugId := Z (only parsing).

Class CommandFormat := {
  MsgInvalid : Msg;
  MsgSetup : Msg;
  MsgTick : Msg;
  MsgVoid : Msg;
  MsgBoolean : Msg;
  MsgByte : Msg;
  MsgAscii : Msg;
  MsgInteger : Msg;
  MsgFloat : Msg;
  MsgBracketStart : Msg;
  MsgBracketEnd : Msg;
  MsgMaxDefined : Msg;
  DebugLevelError : DebugLevel;
  DebugIoOperationNotImplemented : DebugId
}.

(* ===================================================================== *)
(** * Packet                                                              *)
(* ===================================================================== *)

(** [union PacketData]: one slot, written by the constructor that built the
    packet.  [NoData] is the slot of a packet built without a payload; a
    float is kept as its 32 bit pattern. *)
Inductive PacketData :=
| NoData
| DataBoolean (boolean : bool)
| DataCh (ch : ascii)
| DataByte (byte : Z)
| DataLng (lng : Z)
| DataFlt (flt : Z).

Record Packet := { msg : Msg; data : PacketData }.

Section PacketOps.
Context {cf : CommandFormat}.

Definition Packet_void : Packet := {| msg := MsgVoid; data := NoData |}.
Definition Packet_bool (b : bool) : Packet :=
  {| msg := MsgBoolean; data := DataBoolean b |}.
Definition Packet_char (c : ascii) : Packet :=
  {| msg := MsgAscii; data := DataCh c |}.
Definition Packet_byte (by_ : Z) : Packet :=
  {| msg := MsgByte; data := DataByte (wrap_unsigned 8 by_) |}.
Definition Packet_long (l : Z) : Packet :=
  {| msg := MsgInteger; data := DataLng l |}.
Definition Packet_float (f : Z) : Packet :=
  {| msg := MsgFloat; data := DataFlt f |}.
Definition Packet_msg (m : Msg) : Packet := {| msg := m; data := NoData |}.

Definition type (p : Packet) : Msg := msg p.
Definition isValid (p : Packet) : bool :=
  (MsgInvalid <? msg p) && (msg p <? MsgMaxDefined).

Definition isSetup (p : Packet) : bool := msg p =? MsgSetup.
Definition isTick (p : Packet) : bool := msg p =? MsgTick.
Definition isSpecial (p : Packet) : bool := isSetup p || isTick p.

Definition isVoid (p : Packet) : bool := msg p =? MsgVoid.
Definition isStartBracket (p : Packet) : bool := msg p =? MsgBracketStart.
Definition isEndBracket (p : Packet) : bool := msg p =? MsgBracketEnd.

Definition isData (p : Packet) : bool := isValid p && negb (isSpecial p).
Definition isBool (p : Packet) : bool := msg p =? MsgBoolean.
Definition isByte (p : Packet) : bool := msg p =? MsgByte.
Definition isAscii (p : Packet) : bool := msg p =? MsgAscii.
Definition isInteger (p : Packet) : bool := msg p =? MsgInteger.
Definition isFloat (p : Packet) : bool := msg p =? MsgFloat.
Definition isNumber (p : Packet) : bool := isInteger p || isFloat p.
End PacketOps.

(* ===================================================================== *)
(** * Messages, connections, components                                   *)
(* ===================================================================== *)

(** [struct Message { Component *target; PortId targetPort; Packet pkg; }] *)
Record Message := {
  target : option ptr;
  targetPort : PortId;
  pkg : Packet
}.

(** [struct Connection]; its fields carry a prefix because [Message] has
    fields of the same names. *)
Record Connection := {
  conn_target : option ptr;
  conn_targetPort : PortId;
  subscribed : bool
}.

(** The fields of the [Component] base class.  [network] and [io] are
    back-pointers; there is one network and one IO object, so a bound
    pointer is [Some tt].  [fields] stands for the members a derived class
    adds. *)
Record Component := {
  connections : list Connection;
  nPorts : Z;
  network : option unit;
  io : option unit;
  nodeId : NodeId;
  componentId : Z;
  parentNodeId : NodeId;
  fields : list Z
}.

(** [void setParent(int parentId) { parentNodeId = parentId; }]: the [int]
    is converted to the 8 bit field. *)
Definition setParent (parentId : Z) (c : Component) : Component :=
  {| connections := connections c; nPorts := nPorts c; network := network c;
     io := io c; nodeId := nodeId c; componentId := componentId c;
     parentNodeId := to_NodeId parentId; fields := fields c |}.

(** [MicroFlo::NodeId id() const { return nodeId; }] *)
Definition Component_id (c : Component) : NodeId := nodeId c.

(** [int component() const { return componentId; }] *)
Definition Component_component (c : Component) : Z := componentId c.

(** [Network::State]: [enum State { Invalid = -1, Stopped, Running }] *)
Inductive NetworkState := Invalid | Stopped | Running.

Definition NetworkState_value (s : NetworkState) : Z :=
  match s with Invalid => -1 | Stopped => 0 | Running => 1 end.

(** The calls of the [DebugHandler] and [NetworkNotificationHandler]
    interfaces.  A handler object is modelled by the calls it has received,
    oldest first. *)
Inductive Notification :=
| PacketSent (index : Z) (m : Message) (sender : option ptr)
    (senderPort : PortId)
| PacketDelivered (index : Z) (m : Message)
| NodeAdded (c : ptr) (parentId : NodeId)
| NodesConnected (src : ptr) (srcPort : PortId) (tgt : ptr)
    (tgtPort : PortId)
| NetworkStateChanged (s : NetworkState)
| SubgraphConnected (isOutput : bool) (subgraphNode : NodeId)
    (subgraphPort : PortId) (childNode : NodeId) (childPort : PortId)
| PortSubscriptionChanged (node : NodeId) (port : PortId) (enable : bool)
| EmitDebug (level : DebugLevel) (code : DebugId)
| DebugChanged (level : DebugLevel).

Definition Handler := list Notification.

Definition Handler_emitDebug (level : DebugLevel) (code : DebugId)
  (h : Handler) : Handler := h ++ [EmitDebug level code].

(** [MICROFLO_DEBUG(handler, level, code)]:
    [if (handler) { handler->emitDebug(level, code); }].  The macro is used
    with any object that has an [emitDebug] member, so the member is an
    argument. *)
Definition MICROFLO_DEBUG {H : Type} (emit : DebugLevel -> DebugId -> H -> H)
  (handler : option H) (level : DebugLevel) (code : DebugId) : option H :=
  match handler with
  | Some h => Some (emit level code h)
  | None => None
  end.

(* ===================================================================== *)
(** * The IO interface                                                    *)
(* ===================================================================== *)

(** The width of [long] depends on the target (32 bits on AVR and on the
    Cortex-M4 of the Stellaris board, 64 on an LP64 host). *)
Class Target := { LONG_BITS : Z }.

Section LongArith.
Context {tg : Target}.

Definition LONG_MIN : Z := - 2 ^ (LONG_BITS - 1).
Definition LONG_MAX : Z := 2 ^ (LONG_BITS - 1) - 1.
Definition in_long (z : Z) : bool := (LONG_MIN <=? z) && (z <=? LONG_MAX).

(** [a * b] on [long] operands.  Signed overflow is undefined behaviour:
    the product has no value then. *)
Definition long_mul (a b : Z) : option Z :=
  if in_long (a * b) then Some (a * b) else None.

(** Conversion of an [unsigned long] to [long]. *)
Definition to_long (z : Z) : Z := wrap_signed LONG_BITS z.
End LongArith.

(** An IO object: the [debug] member of the base class, and the state [D]
    of the derived class. *)
Record IOState (D : Type) := {
  debug : option Handler;
  self : D
}.
Arguments debug {D} _.
Arguments self {D} _.

Module IO.
Inductive PinMode := InputPin | OutputPin.
Inductive PullupMode := PullNone | PullUp.

Module Interrupt.
Inductive Mode := OnLow | OnHigh | OnChange | OnRisingEdge | OnFallingEdge.
End Interrupt.

(** The virtual members of [class IO] that the development uses, as a
    table of methods over the object's state.  All are pure virtual except
    [TimerCurrentMicros], which the base class defines; a derived class
    that overrides it fills [TimerCurrentMicros_override]. *)
Record Methods (D : Type) := {
  PinSetPullup : PinId -> PullupMode -> IOState D -> IOState D;
  DigitalRead : PinId -> IOState D -> IOState D * bool;
  AnalogRead : PinId -> IOState D -> IOState D * Z;
  PwmWrite : PinId -> Z -> IOState D -> IOState D;
  TimerCurrentMs : IOState D -> IOState D * Z;
  TimerCurrentMicros_override : option (IOState D -> IOState D * Z);
  AttachExternalInterrupt :
    Z -> Interrupt.Mode -> ptr -> ptr -> IOState D -> IOState D
}.
Arguments PinSetPullup {D} _.
Arguments DigitalRead {D} _.
Arguments AnalogRead {D} _.
Arguments PwmWrite {D} _.
Arguments TimerCurrentMs {D} _.
Arguments TimerCurrentMicros_override {D} _.
Arguments AttachExternalInterrupt {D} _.

Section Base.
Context {tg : Target} {D : Type}.

(** [virtual long TimerCurrentMicros() { return TimerCurrentMs()*1000; }]
    The result is [None] where the multiplication overflows. *)
Definition base_TimerCurrentMicros (vt : Methods D) (s : IOState D)
  : IOState D * option Z :=
  let '(s', ms) := TimerCurrentMs vt s in (s', long_mul ms 1000).

(** The call [io->TimerCurrentMicros()], dispatched on the dynamic
    type. *)
Definition TimerCurrentMicros (vt : Methods D) (s : IOState D)
  : IOState D * option Z :=
  match TimerCurrentMicros_override vt with
  | Some f => let '(s', us) := f s in (s', Some us)
  | None => base_TimerCurrentMicros vt s
  end.
End Base.
End IO.

(* ===================================================================== *)
(** * StellarisIO                                                         *)
(* ===================================================================== *)

(** [static const char * const gMagic = "MAGIC!012";] *)
Definition gMagic : string := "MAGIC!012"%string.

(** The characters of a C string, as the values of its bytes (the
    terminating zero is not one of them). *)
Definition string_bytes (s : string) : list Z :=
  map (fun c => Z.of_N (N_of_ascii c)) (list_ascii_of_string s).

Module StellarisIO.
(** The tick counter [g_ulSysTickCount] is a global [unsigned long] that
    the SysTick interrupt increments; a method reads the value it has at
    the call.  The methods that drive the hardware (serial port, pin mode,
    digital write) follow in [StellarisHw]. *)
Record State := {
  g_ulSysTickCount : Z;
  magic : string
}.

Definition t := IOState State.

Section Methods.
Context {cf : CommandFormat} {tg : Target}.

(** [MICROFLO_DEBUG(debug, DebugLevelError,
    DebugIoOperationNotImplemented);] *)
Definition notImplemented (s : t) : t :=
  {| debug := MICROFLO_DEBUG Handler_emitDebug (debug s) DebugLevelError
                DebugIoOperationNotImplemented;
     self := self s |}.

(** [if (mode == IO::PullNone) { } else { MICROFLO_DEBUG(...); }] *)
Definition PinSetPullup (pin : PinId) (mode : IO.PullupMode) (s : t) : t :=
  match mode with
  | IO.PullNone => s
  | _ => notImplemented s
  end.

(** [MICROFLO_DEBUG(...); return false;] *)
Definition DigitalRead (pin : PinId) (s : t) : t * bool :=
  (notImplemented s, false).

(** [MICROFLO_DEBUG(...); return 0;] *)
Definition AnalogRead (pin : PinId) (s : t) : t * Z :=
  (notImplemented s, 0).

(** [MICROFLO_DEBUG(...);] *)
Definition PwmWrite (pin : PinId) (dutyPercent : Z) (s : t) : t :=
  notImplemented s.

(** [return g_ulSysTickCount/1000;] *)
Definition TimerCurrentMs (s : t) : t * Z :=
  (s, to_long (g_ulSysTickCount (self s) / 1000)).

(** [return g_ulSysTickCount;] *)
Definition TimerCurrentMicros (s : t) : t * Z :=
  (s, to_long (g_ulSysTickCount (self s))).

(** [MICROFLO_DEBUG(...);] *)
Definition AttachExternalInterrupt (interrupt : Z)
  (mode : IO.Interrupt.Mode) (func user : ptr) (s : t) : t :=
  notImplemented s.

Definition methods : IO.Methods State :=
  {| IO.PinSetPullup := PinSetPullup;
     IO.DigitalRead := DigitalRead;
     IO.AnalogRead := AnalogRead;
     IO.PwmWrite := PwmWrite;
     IO.TimerCurrentMs := TimerCurrentMs;
     IO.TimerCurrentMicros_override := Some TimerCurrentMicros;
     IO.AttachExternalInterrupt := AttachExternalInterrupt |}.
End Methods.

(** [StellarisIO() : magic(gMagic)]; the constructor does not touch
    [debug], which [Network] sets up later. *)
Definition new (dbg : option Handler) (ticks : Z) : t :=
  {| debug := dbg;
     self := {| g_ulSysTickCount := ticks; magic := gMagic |} |}.
End StellarisIO.

(* ===================================================================== *)
(** * HostCommunication                                                   *)
(* ===================================================================== *)

Module HostCommunication.
(** [enum State { Invalid = -1, ParseHeader, ParseCmd, LookForHeader }] *)
Inductive State := Invalid | ParseHeader | ParseCmd | LookForHeader.



(** The parser's members: [uint8_t currentByte],
    [unsigned char buffer[MICROFLO_CMD_SIZE]], [enum State state].  The
    [network] and [transport] pointers play no part here. *)
Record t := {
  currentByte : Z;
  buffer : list Z;
  state : State
}.

(** The number of slots of [buffer]. *)
Definition buffer_size : Z := MICROFLO_CMD_SIZE.

Section Parser.
(** What a byte does while the header is awaited, and the state in which
    [parseCmd] leaves the parser after a frame: both are in
    [microflo.cpp], and the spec does not fix them. *)
Variable headerByte : Z -> t -> t.
Variable stateAfterCmd : list Z -> State.

(** Modelled from the spec: [HostCommunication::parseByte], whose body
    is in [microflo.cpp].  In [ParseCmd] the byte is stored at
    [buffer[currentByte++]]; when [MICROFLO_CMD_SIZE] bytes are in, the
    buffer is handed to [parseCmd] (the second component of the result)
    and the count restarts at zero. *)
Definition parseByte (b : Z) (hc : t) : t * option (list Z) :=
  match state hc with
  | ParseCmd =>
      let buf := <[Z.to_nat (currentByte hc) := wrap_unsigned 8 b]>
                   (buffer hc) in
      let n := wrap_unsigned 8 (currentByte hc + 1) in
      if n =? MICROFLO_CMD_SIZE
      then ({| currentByte := 0; buffer := buf;
               state := stateAfterCmd buf |}, Some buf)
      else ({| currentByte := n; buffer := buf; state := ParseCmd |},
            None)
  | _ => (headerByte b hc, None)
  end.

(** The transport hands the bytes it reads to [parseByte] one at a
    time; the result lists the frames given to [parseCmd], in order. *)
Fixpoint parseBytes (bs : list Z) (hc : t) : t * list (list Z) :=
  match bs with
  | [] => (hc, [])
  | b :: bs' =>
      let '(hc1, d) := parseByte b hc in
      let '(hc2, ds) := parseBytes bs' hc1 in
      (hc2, match d with Some f => f :: ds | None => ds end)
  end.
End Parser.

(** Whether [c] is the header byte number [i]. *)
Definition isMagicByte (i : Z) (c : Z) : bool :=
  match string_bytes gMagic !! Z.to_nat i with
  | Some x => (0 <=? i) && (x =? c)
  | None => false
  end.

(** Modelled from the spec: the header phase of
    [HostCommunication::parseByte], whose body is in [microflo.cpp].  "A
    magic header (9 bytes, "MAGIC!012") precedes the command stream; on
    fresh boot or after a parse error, the parser scans bytes until it
    matches the header, then switches to ParseCmd."  In LookForHeader the
    parser waits for the first byte of the header; in ParseHeader
    [currentByte] counts the header bytes matched so far, and a byte that
    does not continue the header starts the scan again.  The header bytes
    are compared one by one and not stored (nine bytes do not fit
    [buffer]).  A parser in the sentinel state Invalid ignores the
    byte. *)
Definition scanHeader (b : Z) (hc : t) : t :=
  let c := wrap_unsigned 8 b in
  let rescan :=
    if isMagicByte 0 c
    then {| currentByte := 1; buffer := buffer hc; state := ParseHeader |}
    else {| currentByte := 0; buffer := buffer hc;
            state := LookForHeader |} in
  match state hc with
  | LookForHeader => rescan
  | ParseHeader =>
      if isMagicByte (currentByte hc) c then
        let n := wrap_unsigned 8 (currentByte hc + 1) in
        if n =? Z.of_nat (length (string_bytes gMagic))
        then {| currentByte := 0; buffer := buffer hc; state := ParseCmd |}
        else {| currentByte := n; buffer := buffer hc;
                state := ParseHeader |}
      else rescan
  | _ => hc
  end.
End HostCommunication.

(** Modelled from the spec: [HostTransport::padCommandWithNArguments],
    declared in the header and defined in [microflo.cpp]: it "writes 7 - n
    zero bytes to keep frames fixed-width".  The result lists the bytes
    handed to [sendCommandByte]. *)
Definition padCommandWithNArguments (arguments : Z) : list Z :=
  replicate (Z.to_nat (7 - arguments)) 0.

(* ===================================================================== *)
(** * Network                                                             *)
(* ===================================================================== *)

(** Modelled from the spec: the debug ids that the spec names for the
    network's soft failures (their values are in [commandformat.h]), the
    level at which [NotRunning] is reported, the in-port on which a node is
    handed Setup and Tick, and the debug level of a new network.  The spec
    names them without giving values. *)
Class SpecConstants := {
  DebugNodeUpperLimitReached : DebugId;
  DebugMessageQueueFull : DebugId;
  DebugNotRunning : DebugId;
  DebugLevelNotRunning : DebugLevel;
  lifecyclePort : PortId;
  initialDebugLevel : DebugLevel
}.

(** The arguments of one call of
    [Network::sendMessage(target, targetPort, pkg, sender, senderPort)]. *)
Record SendCall := {
  sc_target : option ptr;
  sc_targetPort : PortId;
  sc_pkg : Packet;
  sc_sender : option ptr;
  sc_senderPort : PortId
}.

(** [components.h] and the component library are not part of the sources
    at hand.  What running [target->process(pkg, port)] does is a
    parameter: it may change the component objects and the world outside
    ([Env]: the IO devices), and it reaches the network only through
    [Network::sendMessage], whose calls it returns in order. *)
Class Components := {
  Env : Type;
  process : option ptr -> Packet -> PortId -> list Component -> Env ->
            list Component * Env * list SendCall
}.

(** Modelled from the spec: [Component::setNetwork(net, n, io)], declared in
    the header and defined in [microflo.cpp]; it binds the node id, the
    network and the IO object. *)
Definition setNetwork (n : Z) (c : Component) : Component :=
  {| connections := connections c; nPorts := nPorts c; network := Some tt;
     io := Some tt; nodeId := to_NodeId n; componentId := componentId c;
     parentNodeId := parentNodeId c; fields := fields c |}.


Module Network.
(** [static const MicroFlo::NodeId firstNodeId = 1;]
    [// 0=reserved: no-parent-node] *)
Definition firstNodeId : NodeId := 1.

(** The private members of [class Network].  [notificationHandler] is a
    pointer, null until [setNotificationHandler] is called; the handler
    object it points to is the list of calls made on it. *)
Record t := {
  nodes : list (option ptr);
  lastAddedNodeIndex : NodeId;
  messages : list Message;
  messageWriteIndex : Z;
  messageReadIndex : Z;
  notificationHandler : option Handler;
  state : NetworkState;
  debugLevel : DebugLevel
}.

(** The network together with the memory its pointers point into:
    [objects !! p] is the component at address [p]. *)
Record World {cs : Components} := {
  net : t;
  objects : list Component;
  env : Env
}.

(** The calls [es] made through a handler pointer: the object receives
    them.  What the network does while the pointer is null is in
    [microflo.cpp]; the model makes no call through a null pointer, the
    guard that [MICROFLO_DEBUG] spells out. *)
Definition hears (es : list Notification) (handler : option Handler)
  : option Handler :=
  match handler with
  | Some h => Some (h ++ es)
  | None => None
  end.

(** Modelled from the spec: the network "forwards every observable event
    to the notification handler"; the calls are in [microflo.cpp]. *)
Definition notify (e : Notification) (n : t) : t :=
  {| nodes := nodes n; lastAddedNodeIndex := lastAddedNodeIndex n;
     messages := messages n; messageWriteIndex := messageWriteIndex n;
     messageReadIndex := messageReadIndex n;
     notificationHandler := hears [e] (notificationHandler n);
     state := state n; debugLevel := debugLevel n |}.

(** Modelled from the spec: [Network::setNotificationHandler], declared
    in the header and defined in [microflo.cpp]; the spec does not describe
    it.  It stores the pointer to the handler that the events go to. *)
Definition setNotificationHandler (handler : option Handler) (n : t) : t :=
  {| nodes := nodes n; lastAddedNodeIndex := lastAddedNodeIndex n;
     messages := messages n; messageWriteIndex := messageWriteIndex n;
     messageReadIndex := messageReadIndex n;
     notificationHandler := handler;
     state := state n; debugLevel := debugLevel n |}.


Definition set_messageReadIndex (i : Z) (n : t) : t :=
  {| nodes := nodes n; lastAddedNodeIndex := lastAddedNodeIndex n;
     messages := messages n; messageWriteIndex := messageWriteIndex n;
     messageReadIndex := i;
     notificationHandler := notificationHandler n;
     state := state n; debugLevel := debugLevel n |}.

Definition set_net {cs : Components} (n : t) (w : World) : World :=
  {| net := n; objects := objects w; env := env w |}.

Definition null_message {cf : CommandFormat} : Message :=
  {| target := None; targetPort := 0; pkg := Packet_void |}.

(** Modelled from the spec: [Network::emitDebug], defined in
    [microflo.cpp].  "If level <= current, forwards to the notification
    handler's emitDebug."  Without handler there is nothing to forward
    to. *)
Definition emitDebug (level : DebugLevel) (code : DebugId) (n : t) : t :=
  if level <=? debugLevel n then notify (EmitDebug level code) n else n.

(** Modelled from the spec: [Network::setDebugLevel], defined in
    [microflo.cpp].  "Stores level and notifies debugChanged." *)
Definition setDebugLevel (level : DebugLevel) (n : t) : t :=
  notify (DebugChanged level)
    {| nodes := nodes n; lastAddedNodeIndex := lastAddedNodeIndex n;
       messages := messages n; messageWriteIndex := messageWriteIndex n;
       messageReadIndex := messageReadIndex n;
       notificationHandler := notificationHandler n;
       state := state n; debugLevel := level |}.

Section Operations.
Context {b : Build} {cf : CommandFormat} {sp : SpecConstants}.

(** Modelled from the spec: the constructor [Network::Network(IO *io)],
    defined in [microflo.cpp].  The network is created Stopped, with an
    empty node table ([lastAdded] is the next free index), an empty queue
    and no notification handler yet. *)
Definition new : t :=
  {| nodes := replicate (Z.to_nat MICROFLO_MAX_NODES) None;
     lastAddedNodeIndex := 0;
     messages := replicate (Z.to_nat MICROFLO_MAX_MESSAGES) null_message;
     messageWriteIndex := 0;
     messageReadIndex := 0;
     notificationHandler := None;
     state := Stopped;
     debugLevel := initialDebugLevel |}.

(** Modelled from the spec: [Network::addNode], defined in
    [microflo.cpp].  "Appends the component at the next free slot, binds
    the node id (= index+1), parent, network pointer, and IO pointer.
    Fails soft (emits NodeUpperLimitReached) when full.  Notifies
    nodeAdded(component, parentId)."  The result is the id, or [None]
    when the node was refused.  [node] addresses a component; where it
    addresses none, there is no object to bind and the memory stays as it
    is. *)
Definition addNode {cs : Components} (node : ptr) (parentId : NodeId)
  (w : World) : World * option NodeId :=
  let n := net w in
  if MICROFLO_MAX_NODES <=? lastAddedNodeIndex n then
    (set_net (emitDebug DebugLevelError DebugNodeUpperLimitReached n) w,
     None)
  else
    let index := lastAddedNodeIndex n in
    let nid := to_NodeId (index + 1) in
    let n' :=
      {| nodes := <[Z.to_nat index := Some node]> (nodes n);
         lastAddedNodeIndex := to_NodeId (index + 1);
         messages := messages n;
         messageWriteIndex := messageWriteIndex n;
         messageReadIndex := messageReadIndex n;
         notificationHandler := notificationHandler n;
         state := state n; debugLevel := debugLevel n |} in
    ({| net := notify (NodeAdded node parentId) n';
        objects := alter (fun c => setParent parentId (setNetwork nid c))
                     node (objects w);
        env := env w |},
     Some nid).

(** The host adds nodes one after the other; the results are kept in
    the order of the calls. *)
Fixpoint addNodes {cs : Components} (reqs : list (ptr * NodeId))
  (w : World) : World * list (option NodeId) :=
  match reqs with
  | [] => (w, [])
  | (node, parentId) :: reqs' =>
      let '(w1, r) := addNode node parentId w in
      let '(w2, rs) := addNodes reqs' w1 in
      (w2, r :: rs)
  end.

(** Modelled from the spec: the slot of the circular buffer
    [messages[0..MAX_MESSAGES)] that holds the message of index [i].  "Both
    indices monotonically advance modulo capacity": [writeIndex] counts the
    messages enqueued and [readIndex] the messages dequeued so far, and a
    message is stored at its index modulo the capacity.  (The members are
    [int]; the model follows them as integers.) *)
Definition slotOf (i : Z) : nat := Z.to_nat (i mod MICROFLO_MAX_MESSAGES).

(** Modelled from the spec: when [sendMessage] finds the queue full.
    "Enqueuing the (MAX_MESSAGES+1)-th unprocessed message yields
    MessageQueueFull": the queue is full when [MICROFLO_MAX_MESSAGES]
    messages are between the two indices, and empty when the indices are
    equal ("the loop ends when readIndex == writeIndex"). *)
Definition queueFull (n : t) : bool :=
  MICROFLO_MAX_MESSAGES <=? messageWriteIndex n - messageReadIndex n.

(** Modelled from the spec: [Network::sendMessage], defined in
    [microflo.cpp].  "Enqueues a Message onto the circular buffer and
    notifies packetSent.  If full, emits MessageQueueFull and drops." *)
Definition sendMessage (tgt : option ptr) (tgtPort : PortId)
  (p : Packet) (sender : option ptr) (senderPort : PortId) (n : t) : t :=
  if queueFull n then
    emitDebug DebugLevelError DebugMessageQueueFull n
  else
    let m := {| target := tgt; targetPort := tgtPort; pkg := p |} in
    let index := messageWriteIndex n in
    notify (PacketSent index m sender senderPort)
      {| nodes := nodes n; lastAddedNodeIndex := lastAddedNodeIndex n;
         messages := <[slotOf index := m]> (messages n);
         messageWriteIndex := index + 1;
         messageReadIndex := messageReadIndex n;
         notificationHandler := notificationHandler n;
         state := state n; debugLevel := debugLevel n |}.

Definition sendCall (c : SendCall) (n : t) : t :=
  sendMessage (sc_target c) (sc_targetPort c) (sc_pkg c) (sc_sender c)
    (sc_senderPort c) n.

Definition sendCalls (cs : list SendCall) (n : t) : t :=
  fold_left (fun n c => sendCall c n) cs n.

(** Modelled from the spec: taking the next message off the queue in
    the delivery loop; there is none when [readIndex = writeIndex]. *)
Definition dequeue (n : t) : option (Z * Message * t) :=
  if messageReadIndex n =? messageWriteIndex n then None
  else
    let index := messageReadIndex n in
    Some (index,
          default null_message (messages n !! slotOf index),
          set_messageReadIndex (index + 1) n).
End Operations.

Section Scheduling.
Context {b : Build} {cf : CommandFormat} {sp : SpecConstants}
  {cs : Components}.

(** Modelled from the spec: the delivery of one dequeued message.
    "m.target.process(m.packet, m.targetPort) runs to completion; any
    send() calls it makes append new messages to the queue's tail.  Each
    delivered message emits packetDelivered(index, m)." *)
Definition deliver (index : Z) (m : Message) (w : World) : World :=
  let '(objs, e, calls) :=
    process (target m) (pkg m) (targetPort m) (objects w) (env w) in
  {| net := notify (PacketDelivered index m) (sendCalls calls (net w));
     objects := objs;
     env := e |}.

(** Modelled from the spec: [Network::processMessages] and
    [Network::deliverMessages], defined in [microflo.cpp].  "The queue
    is processed in strict FIFO order. ... The loop ends when readIndex
    == writeIndex."  The loop need not end (a component may answer every
    packet with a packet), so it runs on fuel: [None] means that [fuel]
    deliveries did not empty the queue. *)
Fixpoint processMessages (fuel : nat) (w : World) : option World :=
  match dequeue (net w) with
  | None => Some w
  | Some (index, m, n') =>
      match fuel with
      | O => None
      | S fuel' => processMessages fuel' (deliver index m (set_net n' w))
      end
  end.

(** Handing a lifecycle packet (Setup, Tick) to one node. *)
Definition handTo (pkt : Packet) (w : World) (node : option ptr) : World :=
  let '(objs, e, calls) :=
    process node pkt lifecyclePort (objects w) (env w) in
  {| net := sendCalls calls (net w); objects := objs; env := e |}.

(** Modelled from the spec: the broadcast of a packet "to every node",
    in the order of the node table. *)
Definition broadcast (pkt : Packet) (w : World) : World :=
  fold_left (handTo pkt)
    (take (Z.to_nat (lastAddedNodeIndex (net w))) (nodes (net w))) w.

(** Modelled from the spec: [Network::runTick], defined in
    [microflo.cpp].  "If Running: (1) deliver all messages currently
    queued, then (2) broadcast a Tick packet to every node, then (3)
    deliver all messages that resulted."  "Called in Stopped, it is a
    no-op that emits NotRunning at debug." *)
Definition runTick (fuel : nat) (w : World) : option World :=
  match state (net w) with
  | Running =>
      match processMessages fuel w with
      | Some w1 => processMessages fuel (broadcast (Packet_msg MsgTick) w1)
      | None => None
      end
  | _ =>
      Some (set_net (emitDebug DebugLevelNotRunning DebugNotRunning
                       (net w)) w)
  end.

End Scheduling.

Section Window.
Context {b : Build} {cf : CommandFormat}.

(** The number of messages in the queue. *)
Definition queued (n : t) : Z := messageWriteIndex n - messageReadIndex n.

(** The [k]-th message of the queue, counted from [readIndex]. *)
Definition slot (n : t) (k : nat) : Message :=
  default null_message
    (messages n !! slotOf (messageReadIndex n + Z.of_nat k)).

(** The active window [readIndex, writeIndex) as the list of the
    messages it holds, oldest first. *)
Definition window (n : t) : list Message :=
  map (slot n) (seq 0 (Z.to_nat (queued n))).

(** The representation invariant of the queue: a buffer of
    [MICROFLO_MAX_MESSAGES] slots, and at most so many messages between
    the two indices. *)
Definition queue_ok (n : t) : Prop :=
  0 < MICROFLO_MAX_MESSAGES
  /\ Z.of_nat (length (messages n)) = MICROFLO_MAX_MESSAGES
  /\ 0 <= messageReadIndex n <= messageWriteIndex n
  /\ messageWriteIndex n - messageReadIndex n <= MICROFLO_MAX_MESSAGES.
End Window.
End Network.

(* ===================================================================== *)
(** * Observations and sample instances                                   *)
(* ===================================================================== *)

Section Observations.
Context {cf : CommandFormat} {D : Type}.

(** The handler of [s'] has just been told
    [emitDebug(DebugLevelError, DebugIoOperationNotImplemented)]. *)
Definition emitsNotImplemented (s' : IOState D) : Prop :=
  exists h,
    debug s' = Some (h ++ [EmitDebug DebugLevelError
                             DebugIoOperationNotImplemented]).

(** All that distinguishes [s'] from [s] is that report, made to the
    handler of [s] if there is one. *)
Definition onlyReportsNotImplemented (s s' : IOState D) : Prop :=
  self s' = self s
  /\ debug s' =
     match debug s with
     | Some h => Some (h ++ [EmitDebug DebugLevelError
                               DebugIoOperationNotImplemented])
     | None => None
     end.
End Observations.

(** The calls a handler has received beyond the first [length old]. *)
Definition newCalls (old new : Handler) : list Notification :=
  drop (length old) new.

(** The messages of the [packetSent] and of the [packetDelivered] calls
    among [es], in order. *)
Definition sentOf (es : list Notification) : list Message :=
  flat_map (fun e => match e with PacketSent _ m _ _ => [m] | _ => [] end) es.

Definition deliveredOf (es : list Notification) : list Message :=
  flat_map (fun e => match e with PacketDelivered _ m => [m] | _ => [] end)
    es.

(** [n'] comes from [n] by enqueues only: the events [extra] have been
    forwarded (to the handler, if there is one), nothing was delivered, and
    the window has grown by the messages sent. *)
Definition grows {b : Build} {cf : CommandFormat} (n n' : Network.t)
  (extra : list Notification) : Prop :=
  Network.notificationHandler n'
  = Network.hears extra (Network.notificationHandler n)
  /\ Network.messageReadIndex n' = Network.messageReadIndex n
  /\ Network.window n' = Network.window n ++ sentOf extra
  /\ deliveredOf extra = []
  /\ Network.state n' = Network.state n
  /\ Network.queue_ok n'.

(** The id that the [k]-th call of a run of [addNode] gets when the table
    held [L] nodes before the run. *)
Definition idOfCall {b : Build} (L : Z) (k : nat) : option NodeId :=
  if L + Z.of_nat k <? MICROFLO_MAX_NODES
  then Some (L + Z.of_nat k + 1) else None.

(** One numbering of the enumerators, a 32 bit target and values for the
    constants that the spec leaves open, to run the definitions on concrete
    inputs. *)
Definition sample_commandformat : CommandFormat :=
  {| MsgInvalid := -1; MsgSetup := 0; MsgTick := 1; MsgVoid := 2;
     MsgBoolean := 3; MsgByte := 4; MsgAscii := 5; MsgInteger := 6;
     MsgFloat := 7; MsgBracketStart := 8; MsgBracketEnd := 9;
     MsgMaxDefined := 10;
     DebugLevelError := 1; DebugIoOperationNotImplemented := 12 |}.

Definition sample_spec_constants : SpecConstants :=
  {| DebugNodeUpperLimitReached := 20; DebugMessageQueueFull := 21;
     DebugNotRunning := 22; DebugLevelNotRunning := 3;
     lifecyclePort := -1; initialDebugLevel := 1 |}.

Definition target32 : Target := {| LONG_BITS := 32 |}.

(** A component library in which no component ever sends. *)
Definition sink_components : Components :=
  {| Env := unit; process := fun _ _ _ objs e => (objs, e, []) |}.

(** A world of such components around a network. *)
Definition sink_world (n : Network.t) (objs : list Component)
  : Network.World (cs := sink_components) :=
  {| Network.net := n; Network.objects := objs;
     Network.env := (tt : @Env sink_components) |}.

(** The network of the default build with the sample constants. *)
Definition sample_network : Network.t :=
  Network.new (b := default_build) (cf := sample_commandformat)
    (sp := sample_spec_constants).

(** The same network with a notification handler that has not received
    anything yet. *)
Definition observed_network : Network.t :=
  Network.setNotificationHandler (Some []) sample_network.

(** A build with room for four messages. *)
Definition small_queue_build : Build :=
  {| MICROFLO_NODE_LIMIT := None; MICROFLO_MESSAGE_LIMIT := Some 4 |}.


(** A component library in which every component answers a packet with
    the same packet to itself. *)
Definition echo_components : Components :=
  {| Env := unit;
     process := fun tgt pkt port objs e =>
       (objs, e,
        [{| sc_target := tgt; sc_targetPort := port; sc_pkg := pkt;
            sc_sender := tgt; sc_senderPort := 0 |}]) |}.

(** A component as its constructor [Component(outPorts, ports)] leaves it,
    the members that the constructor does not set being zero. *)
Definition Component_new (outPorts : list Connection) (ports : Z)
  : Component :=
  {| connections := outPorts; nPorts := ports; network := None; io := None;
     nodeId := 0; componentId := 0; parentNodeId := 0; fields := [] |}.

Section SampleWorlds.
#[local] Existing Instance default_build.
#[local] Existing Instance sample_commandformat.
#[local] Existing Instance sample_spec_constants.


End SampleWorlds.

(** An IO backend that keeps a millisecond clock, implements nothing else
    and does not override [TimerCurrentMicros]. *)
Definition clock_io : IO.Methods Z :=
  {| IO.PinSetPullup := fun _ _ s => s;
     IO.DigitalRead := fun _ s => (s, false);
     IO.AnalogRead := fun _ s => (s, 0);
     IO.PwmWrite := fun _ _ s => s;
     IO.TimerCurrentMs := fun s => (s, self s);
     IO.TimerCurrentMicros_override := None;
     IO.AttachExternalInterrupt := fun _ _ _ _ s => s |}.

(* ===================================================================== *)
(** * StellarisIO: pins, serial port and tick interrupt                   *)
(* ===================================================================== *)

(** The constants of TI's driver library that the backend names
    ([inc/hw_memmap.h], [driverlib/sysctl.h], [driverlib/pin_map.h],
    [driverlib/gpio.h]); the library is not part of the sources at hand. *)
Class Driverlib := {
  GPIO_PORTA_BASE : Z;
  GPIO_PORTB_BASE : Z;
  GPIO_PORTC_BASE : Z;
  GPIO_PORTD_BASE : Z;
  GPIO_PORTE_BASE : Z;
  GPIO_PORTF_BASE : Z;
  SYSCTL_PERIPH_GPIOA : Z;
  SYSCTL_PERIPH_GPIOB : Z;
  SYSCTL_PERIPH_GPIOC : Z;
  SYSCTL_PERIPH_GPIOD : Z;
  SYSCTL_PERIPH_GPIOE : Z;
  SYSCTL_PERIPH_GPIOF : Z;
  UART0_BASE : Z;
  GPIO_PA0_U0RX : Z;
  GPIO_PA1_U0TX : Z;
  GPIO_PIN_0 : Z;
  GPIO_PIN_1 : Z
}.

(** The calls into the driver library, with their arguments.  A method is
    modelled by its result and the calls it makes, in order. *)
Inductive HwCall :=
| MAP_SysCtlPeripheralEnable (periph : Z)
| MAP_GPIOPinTypeGPIOInput (port mask : Z)
| MAP_GPIOPinTypeGPIOOutput (port mask : Z)
| GPIOPinWrite (port mask val : Z)
| MAP_GPIOPinConfigure (config : Z)
| MAP_GPIOPinTypeUART (port pins : Z)
| UARTStdioInit (portNum : Z)
| UARTprintf (text : string)
| UARTCharsAvail (base : Z)
| UARTCharGetNonBlocking (base : Z)
| UARTCharPut (base : Z) (b : Z).

(** What the UART answers to the two reading calls at the moment of the
    call: the value of [UARTCharsAvail(base)] as the [long] that
    [SerialDataAvailable] returns, and the value of
    [UARTCharGetNonBlocking(base)]. *)
Record UartAnswers := {
  charsAvail : Z -> Z;
  charGet : Z -> Z
}.

(** [enum PinMode { InputPin, OutputPin }] as integers. *)
Definition PinMode_value (m : IO.PinMode) : Z :=
  match m with IO.InputPin => 0 | IO.OutputPin => 1 end.

Module StellarisHw.
Section Hardware.
Context {dl : Driverlib} {cf : CommandFormat} {tg : Target}.

(** [static const unsigned long ports[6]] *)
Definition ports : list Z :=
  [GPIO_PORTA_BASE; GPIO_PORTB_BASE; GPIO_PORTC_BASE; GPIO_PORTD_BASE;
   GPIO_PORTE_BASE; GPIO_PORTF_BASE].

(** [static const unsigned long portPeripherals[6]] *)
Definition portPeripherals : list Z :=
  [SYSCTL_PERIPH_GPIOA; SYSCTL_PERIPH_GPIOB; SYSCTL_PERIPH_GPIOC;
   SYSCTL_PERIPH_GPIOD; SYSCTL_PERIPH_GPIOE; SYSCTL_PERIPH_GPIOF].

(** [table[i]]; reading outside the array is undefined. *)
Definition table_at (table : list Z) (i : Z) : option Z :=
  if i <? 0 then None else table !! Z.to_nat i.

(** [#define peripheral(pinNumber) portPeripherals[pinNumber/8]]
    The division of C++ truncates towards zero. *)
Definition peripheral (pinNumber : PinId) : option Z :=
  table_at portPeripherals (Z.quot pinNumber 8).

(** [#define portBase(pinNumber) ports[pinNumber/8]] *)
Definition portBase (pinNumber : PinId) : option Z :=
  table_at ports (Z.quot pinNumber 8).

(** [#define pinMask(pinNumber) 0x01 << (pinNumber%8)]
    The remainder has the sign of [pinNumber]; a shift by a negative count
    is undefined. *)
Definition pinMask (pinNumber : PinId) : option Z :=
  let k := Z.rem pinNumber 8 in
  if k <? 0 then None else Some (Z.shiftl 1 k).

(** [PinSetMode]: [MAP_SysCtlPeripheralEnable(peripheral(pin));] then the
    pin becomes an input or an output; any other mode is reported.  The
    mode is the integer the enumeration variable holds. *)
Definition PinSetMode (pin : PinId) (mode : Z) (s : StellarisIO.t)
  : option (StellarisIO.t * list HwCall) :=
  match peripheral pin with
  | None => None
  | Some per =>
      if mode =? PinMode_value IO.InputPin then
        match portBase pin, pinMask pin with
        | Some pb, Some m =>
            Some (s, [MAP_SysCtlPeripheralEnable per;
                      MAP_GPIOPinTypeGPIOInput pb m])
        | _, _ => None
        end
      else if mode =? PinMode_value IO.OutputPin then
        match portBase pin, pinMask pin with
        | Some pb, Some m =>
            Some (s, [MAP_SysCtlPeripheralEnable per;
                      MAP_GPIOPinTypeGPIOOutput pb m])
        | _, _ => None
        end
      else
        Some (StellarisIO.notImplemented s, [MAP_SysCtlPeripheralEnable per])
  end.

(** [GPIOPinWrite(portBase(pin), pinMask(pin),
                  val ? pinMask(pin) : 0x00);] *)
Definition DigitalWrite (pin : PinId) (val : bool) (s : StellarisIO.t)
  : option (StellarisIO.t * list HwCall) :=
  match portBase pin, pinMask pin with
  | Some pb, Some m => Some (s, [GPIOPinWrite pb m (if val then m else 0)])
  | _, _ => None
  end.

(** [SerialBegin]: only [serialDevice == 0] is set up. *)
Definition SerialBegin (serialDevice baudrate : Z) (s : StellarisIO.t)
  : StellarisIO.t * list HwCall :=
  if serialDevice =? 0 then
    (s, [MAP_SysCtlPeripheralEnable SYSCTL_PERIPH_GPIOA;
         MAP_GPIOPinConfigure GPIO_PA0_U0RX;
         MAP_GPIOPinConfigure GPIO_PA1_U0TX;
         MAP_GPIOPinTypeUART GPIO_PORTA_BASE (Z.lor GPIO_PIN_0 GPIO_PIN_1);
         UARTStdioInit 0;
         UARTprintf (String (ascii_of_nat 10) EmptyString)])
  else (s, []).

(** [SerialDataAvailable]: [return UARTCharsAvail(UART0_BASE);] for device
    0, [return 0;] otherwise. *)
Definition SerialDataAvailable (serialDevice : Z) (u : UartAnswers)
  (s : StellarisIO.t) : StellarisIO.t * Z * list HwCall :=
  if serialDevice =? 0 then
    (s, charsAvail u UART0_BASE, [UARTCharsAvail UART0_BASE])
  else (s, 0, []).

(** [SerialRead]: [return UARTCharGetNonBlocking(UART0_BASE);] for device
    0, the [long] converted to [unsigned char]; [return '\0';]
    otherwise. *)
Definition SerialRead (serialDevice : Z) (u : UartAnswers)
  (s : StellarisIO.t) : StellarisIO.t * Z * list HwCall :=
  if serialDevice =? 0 then
    (s, wrap_unsigned 8 (charGet u UART0_BASE),
     [UARTCharGetNonBlocking UART0_BASE])
  else (s, 0, []).

(** [SerialWrite]: [UARTCharPut(UART0_BASE, b);] for device 0.  The
    parameter [b] is an [unsigned char]: the argument of the call is
    converted to it. *)
Definition SerialWrite (serialDevice : Z) (b : Z) (s : StellarisIO.t)
  : StellarisIO.t * list HwCall :=
  if serialDevice =? 0
  then (s, [UARTCharPut UART0_BASE (wrap_unsigned 8 b)])
  else (s, []).

(** [void SysTickIntHandler(void) { g_ulSysTickCount++; }] on the
    [unsigned long] counter. *)
Definition SysTickIntHandler (st : StellarisIO.State) : StellarisIO.State :=
  {| StellarisIO.g_ulSysTickCount :=
       wrap_unsigned LONG_BITS (StellarisIO.g_ulSysTickCount st + 1);
     StellarisIO.magic := StellarisIO.magic st |}.

(** The interrupt fires between the calls of the main loop: the IO object
    after [n] ticks. *)
Definition afterTicks (n : nat) (s : StellarisIO.t) : StellarisIO.t :=
  {| debug := debug s; self := Nat.iter n SysTickIntHandler (self s) |}.
End Hardware.
End StellarisHw.

(** The calls of the primitives that the Stellaris backend does not
    implement. *)
Inductive UnimplementedCall :=
| CallDigitalRead (pin : PinId)
| CallAnalogRead (pin : PinId)
| CallPwmWrite (pin : PinId) (dutyPercent : Z)
| CallAttachExternalInterrupt (interrupt : Z) (mode : IO.Interrupt.Mode)
    (func user : ptr).

Definition callUnimplemented {cf : CommandFormat} (c : UnimplementedCall)
  (s : StellarisIO.t) : StellarisIO.t :=
  match c with
  | CallDigitalRead pin => fst (StellarisIO.DigitalRead pin s)
  | CallAnalogRead pin => fst (StellarisIO.AnalogRead pin s)
  | CallPwmWrite pin duty => StellarisIO.PwmWrite pin duty s
  | CallAttachExternalInterrupt i mode func user =>
      StellarisIO.AttachExternalInterrupt i mode func user s
  end.

(** A program calls them one after the other. *)
Definition callAllUnimplemented {cf : CommandFormat}
  (cs : list UnimplementedCall) (s : StellarisIO.t) : StellarisIO.t :=
  fold_left (fun s c => callUnimplemented c s) cs s.

(** One assignment of pairwise distinct values to the driver library's
    constants, to run the definitions on concrete inputs. *)
Definition sample_driverlib : Driverlib :=
  {| GPIO_PORTA_BASE := 0x40004000; GPIO_PORTB_BASE := 0x40005000;
     GPIO_PORTC_BASE := 0x40006000; GPIO_PORTD_BASE := 0x40007000;
     GPIO_PORTE_BASE := 0x40024000; GPIO_PORTF_BASE := 0x40025000;
     SYSCTL_PERIPH_GPIOA := 0xf0000800; SYSCTL_PERIPH_GPIOB := 0xf0000801;
     SYSCTL_PERIPH_GPIOC := 0xf0000802; SYSCTL_PERIPH_GPIOD := 0xf0000803;
     SYSCTL_PERIPH_GPIOE := 0xf0000804; SYSCTL_PERIPH_GPIOF := 0xf0000805;
     UART0_BASE := 0x4000C000;
     GPIO_PA0_U0RX := 0x00000001; GPIO_PA1_U0TX := 0x00000401;
     GPIO_PIN_0 := 1; GPIO_PIN_1 := 2 |}.

(** The bytes [bs] contain the magic header. *)
Definition containsMagic (bs : list Z) : Prop :=
  exists pre post, bs = pre ++ string_bytes gMagic ++ post.

(** After the bytes [cs], the parser still awaits the header: it looks for
    its first byte, or it has matched the first [k] bytes, which are the
    last [k] bytes of [cs]. *)
Definition awaitsHeader (cs : list Z) (hc : HostCommunication.t) : Prop :=
  HostCommunication.state hc = HostCommunication.LookForHeader
  \/ (HostCommunication.state hc = HostCommunication.ParseHeader
      /\ exists k : nat,
           HostCommunication.currentByte hc = Z.of_nat k
           /\ (k < 9)%nat
           /\ exists pre, cs = pre ++ take k (string_bytes gMagic)).

(** The kinds of the six public constructors of [Packet]: Void and the
    five kinds that carry a payload. *)
Definition payloadKinds {cf : CommandFormat} : list Msg :=
  [MsgVoid; MsgBoolean; MsgAscii; MsgByte; MsgInteger; MsgFloat].

(* ===================================================================== *)
(** * Theorems                                                            *)
(* ===================================================================== *)

(** Boolean comparisons on [Z] in the hypotheses, as propositions. *)
Ltac zbool :=
  repeat match goal with
    | H : (_ <? _) = true |- _ => apply Z.ltb_lt in H
    | H : (_ <? _) = false |- _ => apply Z.ltb_ge in H
    | H : (_ <=? _) = true |- _ => apply Z.leb_le in H
    | H : (_ <=? _) = false |- _ => apply Z.leb_gt in H
    | H : (_ =? _) = true |- _ => apply Z.eqb_eq in H
    | H : (_ =? _) = false |- _ => apply Z.eqb_neq in H
    end.

Section PacketFacts.
Context {cf : CommandFormat}.

(** C3. For every packet, [isData] holds exactly when the packet is valid
    (its kind lies strictly between the Invalid and MaxDefined sentinels)
    and not special, special meaning that the kind is Setup or Tick; and
    [isNumber] holds exactly when the kind is Integer or Float. *)
Theorem Packet_isData_isNumber (p : Packet) :
  (isValid p = true <-> MsgInvalid < msg p < MsgMaxDefined)
  /\ (isSpecial p = true <-> msg p = MsgSetup \/ msg p = MsgTick)
  /\ (isData p = true <->
      MsgInvalid < msg p < MsgMaxDefined
      /\ ~ (msg p = MsgSetup \/ msg p = MsgTick))
  /\ (isData p = true <-> isValid p = true /\ isSpecial p = false)
  /\ (isNumber p = true <-> msg p = MsgInteger \/ msg p = MsgFloat).
Proof.
  unfold isData, isValid, isSpecial, isNumber, isSetup, isTick, isInteger,
    isFloat.
  repeat split; intros;
    repeat match goal with
      | H : _ /\ _ |- _ => destruct H
      | H : andb _ _ = true |- _ => apply andb_true_iff in H
      | H : orb _ _ = true |- _ => apply orb_true_iff in H
      | H : negb _ = true |- _ => apply negb_true_iff in H
      | H : orb _ _ = false |- _ => apply orb_false_iff in H
      | |- andb _ _ = true => apply andb_true_iff; split
      | |- negb _ = true => apply negb_true_iff
      | |- orb _ _ = false => apply orb_false_iff; split
      | |- orb _ _ = true => apply orb_true_iff
      end;
    try lia.
Qed.
End PacketFacts.

Section IntegerFacts.
Lemma to_NodeId_range (z : Z) : 0 <= to_NodeId z <= 255.
Proof.
  unfold to_NodeId, wrap_unsigned, NodeId_bits.
  pose proof (Z.mod_pos_bound z (2 ^ 8) ltac:(lia)). lia.
Qed.

Lemma to_NodeId_small (z : Z) : 0 <= z <= 255 -> to_NodeId z = z.
Proof.
  intros Hz. unfold to_NodeId, wrap_unsigned, NodeId_bits.
  apply Z.mod_small. lia.
Qed.

(** C7. [NodeId] is an 8 bit unsigned integer (the conversion to it keeps
    exactly the values 0..255 and wraps at 256, and a parent of -1 is
    stored as 255); the first assignable id, [Network::firstNodeId], is 1;
    the value 0, which a component's parent field holds for "no parent",
    lies below every assignable id. *)
Theorem NodeId_8bit_firstNodeId_1 :
  NodeId_bits = 8
  /\ (forall z, 0 <= to_NodeId z <= 255)
  /\ (forall z, to_NodeId z = z <-> 0 <= z <= 255)
  /\ to_NodeId 256 = 0
  /\ Network.firstNodeId = 1
  /\ to_NodeId Network.firstNodeId = Network.firstNodeId
  /\ (forall c, parentNodeId (setParent 0 c) = 0)
  /\ (forall c, parentNodeId (setParent (-1) c) = 255)
  /\ (forall i, Network.firstNodeId <= i -> i <> 0).
Proof.
  split; [reflexivity |].
  split; [exact to_NodeId_range |].
  split.
  { intros z. split.
    - intros Hz. pose proof (to_NodeId_range z). lia.
    - apply to_NodeId_small. }
  split; [reflexivity |].
  split; [reflexivity |].
  split; [reflexivity |].
  split; [intros c; reflexivity |].
  split; [intros c; reflexivity |].
  unfold Network.firstNodeId. intros i Hi. lia.
Qed.
End IntegerFacts.

Section MagicFacts.
Import HostCommunication.

Lemma gMagic_bytes :
  string_bytes gMagic = [0x4D; 0x41; 0x47; 0x49; 0x43; 0x21; 0x30; 0x31; 0x32].
Proof. reflexivity. Qed.

Lemma wrap_unsigned_idem (z : Z) :
  wrap_unsigned 8 (wrap_unsigned 8 z) = wrap_unsigned 8 z.
Proof. unfold wrap_unsigned. apply Z.mod_mod. lia. Qed.

Lemma containsMagic_app (cs more : list Z) :
  containsMagic cs -> containsMagic (cs ++ more).
Proof.
  intros (pre & post & ->). exists pre, (post ++ more).
  rewrite <- !app_assoc. reflexivity.
Qed.

Lemma isMagicByte_true (i c : Z) :
  isMagicByte i c = true ->
  0 <= i /\ string_bytes gMagic !! Z.to_nat i = Some c.
Proof.
  unfold isMagicByte.
  destruct (string_bytes gMagic !! Z.to_nat i) as [x |]; [| discriminate].
  intros H. apply andb_true_iff in H. destruct H as [H1 H2]. zbool.
  subst x. split; [exact H1 | reflexivity].
Qed.

(** Starting the scan again on the byte [c]. *)
Lemma rescan_awaits (cs buf : list Z) (c : Z) :
  awaitsHeader (cs ++ [c])
    (if isMagicByte 0 c
     then {| currentByte := 1; buffer := buf; state := ParseHeader |}
     else {| currentByte := 0; buffer := buf; state := LookForHeader |}).
Proof.
  destruct (isMagicByte 0 c) eqn:E.
  - right. split; [reflexivity |]. exists 1%nat.
    split; [reflexivity |]. split; [lia |]. exists cs.
    apply isMagicByte_true in E. destruct E as [_ E].
    change (Z.to_nat 0) with 0%nat in E.
    rewrite (take_S_r _ _ _ E). reflexivity.
  - left. reflexivity.
Qed.

(** One byte in the header phase: nothing is dispatched, and either the
    header is complete or the parser still awaits it. *)
Lemma scanHeader_step (stateAfterCmd : list Z -> State) (b : Z) (hc : t)
  (cs : list Z) :
  awaitsHeader cs hc ->
  parseByte scanHeader stateAfterCmd b hc = (scanHeader b hc, None)
  /\ (containsMagic (cs ++ [wrap_unsigned 8 b])
      \/ awaitsHeader (cs ++ [wrap_unsigned 8 b]) (scanHeader b hc)).
Proof.
  destruct hc as [cb buf st]. unfold awaitsHeader. simpl.
  intros [-> | [-> (k & -> & Hk & pre & ->)]].
  - split; [reflexivity |]. right. unfold scanHeader. simpl.
    apply rescan_awaits.
  - split; [reflexivity |]. unfold scanHeader. simpl.
    destruct (isMagicByte (Z.of_nat k) (wrap_unsigned 8 b)) eqn:E.
    + apply isMagicByte_true in E. destruct E as [_ E].
      rewrite Nat2Z.id in E.
      assert (Hn : wrap_unsigned 8 (Z.of_nat k + 1) = Z.of_nat (S k)).
      { unfold wrap_unsigned. rewrite Z.mod_small; lia. }
      rewrite Hn. rewrite <- app_assoc, <- (take_S_r _ _ _ E).
      change (Z.of_nat 9) with 9.
      destruct (Z.of_nat (S k) =? 9) eqn:E9; zbool.
      * left. exists pre, []. rewrite app_nil_r. f_equal.
        apply take_ge. simpl. lia.
      * right. right. split; [reflexivity |]. exists (S k).
        split; [reflexivity |]. split; [lia |]. exists pre. reflexivity.
    + right. apply rescan_awaits.
Qed.

(** A stream of bytes in the header phase. *)
Lemma scanHeader_run (stateAfterCmd : list Z -> State) (bs : list Z) :
  forall (hc : t) (cs : list Z),
    awaitsHeader cs hc ->
    containsMagic (cs ++ map (wrap_unsigned 8) bs)
    \/ (snd (parseBytes scanHeader stateAfterCmd bs hc) = []
        /\ awaitsHeader (cs ++ map (wrap_unsigned 8) bs)
             (fst (parseBytes scanHeader stateAfterCmd bs hc))).
Proof.
  induction bs as [| b bs IH]; intros hc cs Hw.
  - right. simpl. rewrite app_nil_r. split; [reflexivity | exact Hw].
  - destruct (scanHeader_step stateAfterCmd b hc cs Hw) as (Hstep & Hnext).
    simpl. rewrite Hstep.
    replace (cs ++ wrap_unsigned 8 b :: map (wrap_unsigned 8) bs)
      with ((cs ++ [wrap_unsigned 8 b]) ++ map (wrap_unsigned 8) bs)
      by (rewrite <- app_assoc; reflexivity).
    destruct Hnext as [Hseen | Hw'].
    + left. apply containsMagic_app. exact Hseen.
    + destruct (IH (scanHeader b hc) _ Hw') as [Hseen | (Hnone & Hw'')].
      * left. exact Hseen.
      * right.
        destruct (parseBytes scanHeader stateAfterCmd bs (scanHeader b hc))
          as [hc2 ds].
        simpl in *. subst ds. split; [reflexivity | exact Hw''].
Qed.

Lemma parseByte_scanHeader_wrap (stateAfterCmd : list Z -> State) (b : Z)
  (hc : t) :
  parseByte scanHeader stateAfterCmd (wrap_unsigned 8 b) hc
  = parseByte scanHeader stateAfterCmd b hc.
Proof.
  unfold parseByte, scanHeader. cbv zeta.
  rewrite !wrap_unsigned_idem. reflexivity.
Qed.

Lemma parseBytes_scanHeader_wrap (stateAfterCmd : list Z -> State)
  (bs : list Z) :
  forall hc : t,
    parseBytes scanHeader stateAfterCmd (map (wrap_unsigned 8) bs) hc
    = parseBytes scanHeader stateAfterCmd bs hc.
Proof.
  induction bs as [| b bs IH]; intros hc; [reflexivity |].
  simpl. rewrite parseByte_scanHeader_wrap.
  destruct (parseByte scanHeader stateAfterCmd b hc) as [hc1 d].
  rewrite IH. reflexivity.
Qed.

(** C5. The magic header is exactly the nine bytes
    4D 41 47 49 43 21 30 31 32, the ASCII text "MAGIC!012", and it precedes
    the command stream: a parser that looks for the header is in ParseCmd
    after these nine bytes, with nothing dispatched, and not before; the
    eight bytes that follow are dispatched as a command; whatever the
    bytes, the parser reaches ParseCmd or dispatches a command only after
    a stream that contains the nine bytes, and of the streams of nine
    bytes the header is the only one that takes it to ParseCmd.  The
    Stellaris backend keeps the same string in [magic]. *)
Theorem HostCommunication_magic_header_precedes_commands
  (stateAfterCmd : list Z -> State) (cb x0 x1 x2 x3 x4 x5 x6 x7 : Z) :
  let boot := {| currentByte := cb;
                 buffer := [x0; x1; x2; x3; x4; x5; x6; x7];
                 state := LookForHeader |} in
  let feed := parseBytes scanHeader stateAfterCmd in
  string_bytes gMagic
  = [0x4D; 0x41; 0x47; 0x49; 0x43; 0x21; 0x30; 0x31; 0x32]
  /\ length (string_bytes gMagic) = 9%nat
  /\ feed (string_bytes gMagic) boot
     = ({| currentByte := 0; buffer := [x0; x1; x2; x3; x4; x5; x6; x7];
           state := ParseCmd |}, [])
  /\ (forall k : nat,
        (k < 9)%nat ->
        snd (feed (take k (string_bytes gMagic)) boot) = []
        /\ state (fst (feed (take k (string_bytes gMagic)) boot))
           <> ParseCmd)
  /\ (forall b0 b1 b2 b3 b4 b5 b6 b7 : Z,
        snd (feed (string_bytes gMagic ++ [b0; b1; b2; b3; b4; b5; b6; b7])
               boot)
        = [map (wrap_unsigned 8) [b0; b1; b2; b3; b4; b5; b6; b7]])
  /\ (forall bs : list Z,
        state (fst (feed bs boot)) = ParseCmd \/ snd (feed bs boot) <> [] ->
        containsMagic (map (wrap_unsigned 8) bs))
  /\ (forall bs : list Z,
        length bs = 9%nat ->
        (state (fst (feed bs boot)) = ParseCmd
         <-> map (wrap_unsigned 8) bs = string_bytes gMagic))
  /\ (forall dbg ticks,
        StellarisIO.magic (self (StellarisIO.new dbg ticks)) = gMagic).
Proof.
  intros boot feed.
  assert (Hrun : feed (string_bytes gMagic) boot
                 = ({| currentByte := 0;
                       buffer := [x0; x1; x2; x3; x4; x5; x6; x7];
                       state := ParseCmd |}, [])) by reflexivity.
  assert (Hseen : forall bs : list Z,
             state (fst (feed bs boot)) = ParseCmd
             \/ snd (feed bs boot) <> [] ->
             containsMagic (map (wrap_unsigned 8) bs)).
  { intros bs H.
    destruct (scanHeader_run stateAfterCmd bs boot []
                ltac:(left; reflexivity)) as [Hc | (Hnone & Hw)].
    - exact Hc.
    - exfalso. fold feed in Hnone, Hw. destruct H as [H | H].
      + destruct Hw as [Hw | [Hw _]]; rewrite H in Hw; discriminate Hw.
      + apply H. exact Hnone. }
  split; [reflexivity |]. split; [reflexivity |]. split; [exact Hrun |].
  split.
  { intros k Hk.
    do 9 (destruct k as [| k]; [split; [reflexivity | discriminate] |]).
    lia. }
  split; [intros; reflexivity |].
  split; [exact Hseen |].
  split; [| intros; reflexivity].
  intros bs Hlen. split.
  - intros H. destruct (Hseen bs (or_introl H)) as (pre & post & Heq).
    pose proof (f_equal (@length Z) Heq) as Hl.
    rewrite length_map, !length_app, Hlen in Hl. simpl in Hl.
    destruct pre; [| simpl in Hl; lia].
    destruct post; [| simpl in Hl; lia].
    rewrite Heq, app_nil_r. reflexivity.
  - intros H. unfold feed.
    rewrite <- parseBytes_scanHeader_wrap, H. fold feed. rewrite Hrun.
    reflexivity.
Qed.
End MagicFacts.

Section ParserStates.
Import HostCommunication.

End ParserStates.

Section IOFacts.
Context {cf : CommandFormat} {tg : Target}.

Lemma notImplemented_onlyReports (s : StellarisIO.t) :
  onlyReportsNotImplemented s (StellarisIO.notImplemented s).
Proof.
  unfold onlyReportsNotImplemented, StellarisIO.notImplemented,
    MICROFLO_DEBUG, Handler_emitDebug.
  simpl. destruct (debug s); split; reflexivity.
Qed.

(** C9, amended. On the Stellaris target DigitalRead (which returns
    false), AnalogRead (which returns 0), PwmWrite and
    AttachExternalInterrupt report DebugIoOperationNotImplemented at error
    level to the debug handler of the IO object when there is one, report
    nothing when there is none, and change nothing else.  So does
    PinSetPullup for the pull-up it does not implement. *)
Theorem StellarisIO_unimplemented_primitives (s : StellarisIO.t) :
  (forall pin,
      onlyReportsNotImplemented s (fst (StellarisIO.DigitalRead pin s))
      /\ snd (StellarisIO.DigitalRead pin s) = false)
  /\ (forall pin,
        onlyReportsNotImplemented s (fst (StellarisIO.AnalogRead pin s))
        /\ snd (StellarisIO.AnalogRead pin s) = 0)
  /\ (forall pin duty,
        onlyReportsNotImplemented s (StellarisIO.PwmWrite pin duty s))
  /\ (forall i mode func user,
        onlyReportsNotImplemented s
          (StellarisIO.AttachExternalInterrupt i mode func user s))
  /\ (forall pin,
        onlyReportsNotImplemented s
          (StellarisIO.PinSetPullup pin IO.PullUp s)
        /\ StellarisIO.PinSetPullup pin IO.PullNone s = s)
  /\ (forall s' : StellarisIO.t,
        onlyReportsNotImplemented s s' ->
        (emitsNotImplemented s' <-> exists h, debug s = Some h)).
Proof.
  repeat split; simpl; try apply notImplemented_onlyReports.
  - intros [h' Hh']. destruct H as [_ Hd]. rewrite Hh' in Hd.
    destruct (debug s) as [h |]; [exists h; reflexivity | discriminate].
  - intros [h Hh]. destruct H as [_ Hd]. rewrite Hh in Hd.
    exists h. exact Hd.
Qed.

(** C10, amended. For an IO implementation that does not override
    TimerCurrentMicros, the call returns TimerCurrentMs() * 1000 whenever
    that product is a [long], the type of the result: it leaves the object
    as TimerCurrentMs leaves it, and it returns [us] exactly when [us] is
    the millisecond value times 1000 and lies between LONG_MIN and
    LONG_MAX. *)
Theorem IO_TimerCurrentMicros_is_ms_times_1000 {D : Type}
  (vt : IO.Methods D) (s : IOState D) :
  IO.TimerCurrentMicros_override vt = None ->
  fst (IO.TimerCurrentMicros vt s) = fst (IO.TimerCurrentMs vt s)
  /\ (forall us,
        snd (IO.TimerCurrentMicros vt s) = Some us
        <-> us = snd (IO.TimerCurrentMs vt s) * 1000
            /\ LONG_MIN <= us <= LONG_MAX).
Proof.
  intros Hbase. unfold IO.TimerCurrentMicros, IO.base_TimerCurrentMicros.
  rewrite Hbase. destruct (IO.TimerCurrentMs vt s) as [s' ms]. simpl.
  split; [reflexivity |].
  intros us. unfold long_mul, in_long.
  destruct (LONG_MIN <=? ms * 1000) eqn:Hlo;
    destruct (ms * 1000 <=? LONG_MAX) eqn:Hhi; simpl;
    split; intros H; try discriminate H;
    try (injection H as <-; lia);
    try (destruct H as [-> H]; first [reflexivity | lia]).
Qed.
End IOFacts.

(** C9, counterexample. A Stellaris IO object without debug handler
    returns the default from DigitalRead and emits nothing. *)
Lemma StellarisIO_DigitalRead_without_handler :
  let s := StellarisIO.new None 5000 in
  let r := StellarisIO.DigitalRead (cf := sample_commandformat) 13 s in
  snd r = false
  /\ debug (fst r) = None
  /\ (emitsNotImplemented (cf := sample_commandformat) (fst r) -> False).
Proof.
  simpl. split; [reflexivity |]. split; [reflexivity |].
  intros [h Hh]. discriminate Hh.
Qed.

(** C10, counterexample. On a target with a 32 bit [long], a backend
    without override whose millisecond clock shows 2147484 (35 minutes and
    47.484 seconds) does not return 2147484000: the product is not a
    [long], and the multiplication has no value. *)
Lemma IO_TimerCurrentMicros_not_ms_times_1000 :
  let s := {| debug := None; self := 2147484 |} in
  IO.TimerCurrentMicros_override clock_io = None
  /\ snd (IO.TimerCurrentMs clock_io s) = 2147484
  /\ LONG_MAX (tg := target32) = 2147483647
  /\ snd (IO.TimerCurrentMicros (tg := target32) clock_io s) = None
  /\ (snd (IO.TimerCurrentMicros (tg := target32) clock_io s)
      = Some (snd (IO.TimerCurrentMs clock_io s) * 1000) -> False).
Proof.
  simpl. do 4 (split; [reflexivity |]). intros H. discriminate H.
Qed.

(** C10, witness: a backend without override on a 32 bit target; 1234 ms
    are 1234000 microseconds. *)
Lemma IO_TimerCurrentMicros_clock_io :
  IO.TimerCurrentMicros_override clock_io = None
  /\ snd (IO.TimerCurrentMicros (tg := target32) clock_io
            {| debug := None; self := 1234 |}) = Some 1234000.
Proof.
  split; [reflexivity |].
  apply (proj2 (IO_TimerCurrentMicros_is_ms_times_1000 (tg := target32)
                  clock_io {| debug := None; self := 1234 |} eq_refl)).
  vm_compute. split; [reflexivity |]. split; discriminate.
Defined.

(** The Stellaris backend overrides the microsecond clock: it returns the
    tick counter, which is not 1000 times the millisecond value in
    general. *)
Lemma StellarisIO_overrides_TimerCurrentMicros :
  let s := StellarisIO.new None 1500 in
  IO.TimerCurrentMs (StellarisIO.methods (cf := sample_commandformat)
                       (tg := target32)) s = (s, 1)
  /\ IO.TimerCurrentMicros (tg := target32)
       (StellarisIO.methods (cf := sample_commandformat) (tg := target32)) s
     = (s, Some 1500).
Proof. split; reflexivity. Qed.

Section HandlerFacts.
Import Network.

Lemma newCalls_app (old extra : Handler) : newCalls old (old ++ extra) = extra.
Proof. unfold newCalls. apply drop_app_length. Qed.

Lemma newCalls_same (old : Handler) : newCalls old old = [].
Proof. unfold newCalls. apply drop_all. Qed.

Lemma hears_nil (o : option Handler) : hears [] o = o.
Proof. destruct o; simpl; rewrite ?app_nil_r; reflexivity. Qed.

Lemma hears_app (e1 e2 : list Notification) (o : option Handler) :
  hears e2 (hears e1 o) = hears (e1 ++ e2) o.
Proof. destruct o; simpl; rewrite <- ?app_assoc; reflexivity. Qed.

Lemma notify_unheard (e : Notification) (n : t) :
  notificationHandler n = None -> notify e n = n.
Proof. destruct n. simpl. intros ->. reflexivity. Qed.
End HandlerFacts.

Section DebugFacts.
Context {b : Build} {cf : CommandFormat} {sp : SpecConstants}.
Import Network.

Lemma emitDebug_cases (level : DebugLevel) (code : DebugId) (n : t) :
  (level <= debugLevel n
   /\ emitDebug level code n = notify (EmitDebug level code) n)
  \/ (debugLevel n < level /\ emitDebug level code n = n).
Proof.
  unfold emitDebug. destruct (level <=? debugLevel n) eqn:H.
  - left. split; [lia | reflexivity].
  - right. split; [lia | reflexivity].
Qed.

(** What a handler [h] has received once [emitDebug] has returned. *)
Lemma emitDebug_heard (level : DebugLevel) (code : DebugId) (n : t)
  (h : Handler) :
  notificationHandler n = Some h ->
  (level <= debugLevel n
   /\ notificationHandler (emitDebug level code n)
      = Some (h ++ [EmitDebug level code]))
  \/ (debugLevel n < level
      /\ notificationHandler (emitDebug level code n) = Some h).
Proof.
  intros Hh.
  destruct (emitDebug_cases level code n) as [[Hle ->] | [Hgt ->]].
  - left. split; [exact Hle |]. simpl. rewrite Hh. reflexivity.
  - right. split; [exact Hgt | exact Hh].
Qed.

(** C6, amended. [Network::emitDebug(level, id)] forwards to the emitDebug
    of the notification handler exactly when a handler is attached and
    level <= the current debug level, and leaves the network as it is
    otherwise; so every debug event that reaches the handler through it,
    as for a [MICROFLO_DEBUG] on the network or for the report of a full
    queue by [sendMessage], has a level <= the debug level current at that
    moment.  A [MICROFLO_DEBUG] on a [DebugHandler] itself, as the IO
    backends make it on [debug], has no level test: the handler receives
    the event whatever its level. *)
Theorem Network_emitDebug_forwards_iff_level_le (level : DebugLevel)
  (code : DebugId) (n : t) :
  (forall h : Handler,
      notificationHandler n = Some h ->
      (notificationHandler (emitDebug level code n)
       = Some (h ++ [EmitDebug level code])
       <-> level <= debugLevel n)
      /\ (notificationHandler (emitDebug level code n) = Some h
          <-> debugLevel n < level)
      /\ (forall h' e,
            notificationHandler (emitDebug level code n) = Some h' ->
            (In e (newCalls h h')
             <-> e = EmitDebug level code /\ level <= debugLevel n)))
  /\ (notificationHandler n = None -> emitDebug level code n = n)
  /\ (emitDebug level code n = n
      <-> debugLevel n < level \/ notificationHandler n = None)
  /\ debugLevel (emitDebug level code n) = debugLevel n
  /\ MICROFLO_DEBUG emitDebug (Some n) level code
     = Some (emitDebug level code n)
  /\ (forall tgt tgtPort p sender senderPort h h' l c,
        notificationHandler n = Some h ->
        notificationHandler (sendMessage tgt tgtPort p sender senderPort n)
        = Some h' ->
        In (EmitDebug l c) (newCalls h h') ->
        l <= debugLevel n)
  /\ (forall h : Handler,
        MICROFLO_DEBUG Handler_emitDebug (Some h) level code
        = Some (h ++ [EmitDebug level code]))
  /\ (forall (io : StellarisIO.t) (h : Handler) (pin : PinId),
        debug io = Some h ->
        debug (fst (StellarisIO.DigitalRead pin io))
        = Some (h ++ [EmitDebug DebugLevelError
                        DebugIoOperationNotImplemented])).
Proof.
  assert (Hneq : forall (h : Handler) e, h ++ [e] <> h).
  { intros h e H. apply (f_equal (@length _)) in H.
    rewrite length_app in H. simpl in H. lia. }
  split.
  { intros h Hh.
    destruct (emitDebug_heard level code n h Hh) as [[Hle ->] | [Hgt ->]].
    - split; [split; [intros _; exact Hle | reflexivity] |].
      split.
      { split; [| lia]. intros H. exfalso. injection H as H.
        exact (Hneq _ _ H). }
      intros h' e H. injection H as <-. rewrite newCalls_app. simpl. split.
      + intros [<- | []]. split; [reflexivity | exact Hle].
      + intros [-> _]. left. reflexivity.
    - split.
      { split; [| lia]. intros H. exfalso. injection H as H.
        exact (Hneq _ _ (eq_sym H)). }
      split; [split; [intros _; exact Hgt | reflexivity] |].
      intros h' e H. injection H as <-. rewrite newCalls_same. simpl.
      split; [intros [] | lia]. }
  split.
  { intros Hnone. unfold emitDebug.
    destruct (level <=? debugLevel n); [| reflexivity].
    apply notify_unheard. exact Hnone. }
  split.
  { split.
    - intros He. destruct (notificationHandler n) as [h |] eqn:Hh;
        [| right; reflexivity].
      left.
      destruct (emitDebug_heard level code n h Hh) as [[Hle H] | [Hgt _]];
        [| exact Hgt].
      exfalso. rewrite He, Hh in H. injection H as H.
      exact (Hneq _ _ (eq_sym H)).
    - intros [Hgt | Hnone].
      + destruct (emitDebug_cases level code n) as [[Hle _] | [_ He]];
          [lia | exact He].
      + unfold emitDebug.
        destruct (level <=? debugLevel n); [| reflexivity].
        apply notify_unheard. exact Hnone. }
  split.
  { unfold emitDebug. destruct (level <=? debugLevel n); reflexivity. }
  split; [reflexivity |].
  split.
  { intros tgt tgtPort p sender senderPort h h' l c Hh.
    unfold sendMessage. destruct (queueFull n).
    - destruct (emitDebug_heard DebugLevelError DebugMessageQueueFull n h Hh)
        as [[Hle ->] | [Hgt ->]]; intros H; injection H as <-.
      + rewrite newCalls_app. simpl.
        intros [H | []]. injection H as <- <-. exact Hle.
      + rewrite newCalls_same. intros [].
    - simpl. rewrite Hh. simpl. intros H. injection H as <-.
      rewrite newCalls_app. simpl. intros [H | []]. discriminate H. }
  split; [intros h; reflexivity |].
  intros io h pin Hh. simpl. unfold MICROFLO_DEBUG. rewrite Hh.
  reflexivity.
Qed.
End DebugFacts.

(** C6, counterexample. The debug level of the network is 0, below
    DebugLevelError = 1; the debug handler of the Stellaris IO object has
    received nothing.  After a DigitalRead the handler has received a debug
    event of level 1. *)
Lemma IO_debug_event_above_debugLevel :
  let n := Network.setDebugLevel 0 observed_network in
  let io := StellarisIO.new (Some []) 0 in
  let io' := fst (StellarisIO.DigitalRead (cf := sample_commandformat) 13
                    io) in
  Network.debugLevel n = 0
  /\ debug io' = Some [EmitDebug 1 12]
  /\ exists h level code,
       debug io' = Some h
       /\ In (EmitDebug level code) h
       /\ Network.debugLevel n < level.
Proof.
  simpl. split; [reflexivity |]. split; [reflexivity |].
  exists [EmitDebug 1 12], 1, 12.
  split; [reflexivity |]. split; [left; reflexivity | lia].
Qed.

Section FrameFacts.
Import HostCommunication.
Variable headerByte : Z -> t -> t.
Variable stateAfterCmd : list Z -> State.

Let feed := parseBytes headerByte stateAfterCmd.

(** C4. A command frame is MICROFLO_CMD_SIZE = 8 bytes, one opcode byte
    and seven payload bytes, and the parser's buffer has that size.  From
    a frame boundary in ParseCmd, the first k < 8 bytes of a frame are
    stored and nothing is dispatched; the eighth byte dispatches parseCmd,
    once, on the eight bytes received, and the count restarts.  An
    outbound frame, an opcode and n <= 7 argument bytes padded by
    padCommandWithNArguments(n), has the same size. *)
Theorem HostCommunication_frame_is_8_bytes (hc : t) (bs : list Z) :
  state hc = ParseCmd ->
  currentByte hc = 0 ->
  Z.of_nat (length (buffer hc)) = buffer_size ->
  Z.of_nat (length bs) = MICROFLO_CMD_SIZE ->
  MICROFLO_CMD_SIZE = 8
  /\ CMD_OPCODE_BYTES = 1 /\ CMD_PAYLOAD_BYTES = 7
  /\ buffer_size = 8
  /\ (forall k : nat,
        (k < 8)%nat ->
        snd (feed (take k bs) hc) = []
        /\ state (fst (feed (take k bs) hc)) = ParseCmd
        /\ currentByte (fst (feed (take k bs) hc)) = Z.of_nat k
        /\ take k (buffer (fst (feed (take k bs) hc)))
           = map (wrap_unsigned 8) (take k bs))
  /\ snd (feed bs hc) = [map (wrap_unsigned 8) bs]
  /\ (exists opcode payload,
        map (wrap_unsigned 8) bs = opcode :: payload
        /\ length payload = 7%nat)
  /\ fst (feed bs hc)
     = {| currentByte := 0; buffer := map (wrap_unsigned 8) bs;
          state := stateAfterCmd (map (wrap_unsigned 8) bs) |}
  /\ (forall (opcode : Z) (args : list Z),
        (length args <= 7)%nat ->
        Z.of_nat (length (opcode :: args
                          ++ padCommandWithNArguments
                               (Z.of_nat (length args))))
        = MICROFLO_CMD_SIZE).
Proof.
  intros Hst Hcb Hbuf Hbs.
  destruct hc as [cb buf st]. simpl in Hst, Hcb, Hbuf. subst st cb.
  change buffer_size with 8 in Hbuf. change MICROFLO_CMD_SIZE with 8 in Hbs.
  destruct buf as [| x0 [| x1 [| x2 [| x3 [| x4 [| x5 [| x6 [| x7 [| ]]]]]]]]];
    simpl in Hbuf; try lia.
  destruct bs as [| b0 [| b1 [| b2 [| b3 [| b4 [| b5 [| b6 [| b7 [| ]]]]]]]]];
    simpl in Hbs; try lia.
  clear Hbuf Hbs. subst feed.
  split; [reflexivity |]. split; [reflexivity |]. split; [reflexivity |].
  split; [reflexivity |].
  split.
  { intros k Hk.
    do 8 (destruct k as [| k]; [repeat split |]). lia. }
  split; [reflexivity |].
  split; [eexists; eexists; split; reflexivity |].
  split; [reflexivity |].
  intros opcode args Hargs. unfold padCommandWithNArguments.
  simpl length. rewrite length_app, length_replicate.
  change MICROFLO_CMD_SIZE with 8. lia.
Qed.
End FrameFacts.

(** C4, witness: a frame of eight bytes, from a frame boundary. *)
Lemma HostCommunication_frame_example :
  let hc := {| HostCommunication.currentByte := 0;
               HostCommunication.buffer := replicate 8 0;
               HostCommunication.state := HostCommunication.ParseCmd |} in
  let frame := [11; 1; 0; 0; 0; 0; 0; 0] in
  (HostCommunication.state hc = HostCommunication.ParseCmd
   /\ HostCommunication.currentByte hc = 0
   /\ Z.of_nat (length (HostCommunication.buffer hc))
      = HostCommunication.buffer_size
   /\ Z.of_nat (length frame) = MICROFLO_CMD_SIZE)
  /\ snd (HostCommunication.parseBytes (fun _ hc => hc)
            (fun _ => HostCommunication.ParseCmd) frame hc) = [frame].
Proof.
  split; [repeat split |].
  exact (proj1 (proj2 (proj2 (proj2 (proj2 (proj2
    (HostCommunication_frame_is_8_bytes (fun _ hc => hc)
       (fun _ => HostCommunication.ParseCmd)
       {| HostCommunication.currentByte := 0;
          HostCommunication.buffer := replicate 8 0;
          HostCommunication.state := HostCommunication.ParseCmd |}
       [11; 1; 0; 0; 0; 0; 0; 0] eq_refl eq_refl eq_refl eq_refl))))))).
Defined.

Section NodeTableFacts.
Context {b : Build} {cf : CommandFormat} {sp : SpecConstants}
  {cs : Components}.
Import Network.

Lemma addNode_full (node : ptr) (parentId : NodeId) (w : World) :
  MICROFLO_MAX_NODES <= lastAddedNodeIndex (net w) ->
  exists w',
    addNode node parentId w = (w', None)
    /\ nodes (net w') = nodes (net w)
    /\ lastAddedNodeIndex (net w') = lastAddedNodeIndex (net w)
    /\ objects w' = objects w.
Proof.
  intros Hfull. unfold addNode.
  destruct (MICROFLO_MAX_NODES <=? lastAddedNodeIndex (net w)) eqn:E;
    [| lia].
  eexists. split; [reflexivity |].
  unfold emitDebug.
  destruct (DebugLevelError <=? debugLevel (net w)); repeat split.
Qed.

Lemma addNode_free (node : ptr) (parentId : NodeId) (w : World) :
  0 <= lastAddedNodeIndex (net w) < MICROFLO_MAX_NODES ->
  MICROFLO_MAX_NODES <= 255 ->
  exists w',
    addNode node parentId w = (w', Some (lastAddedNodeIndex (net w) + 1))
    /\ nodes (net w')
       = <[Z.to_nat (lastAddedNodeIndex (net w)) := Some node]>
           (nodes (net w))
    /\ lastAddedNodeIndex (net w') = lastAddedNodeIndex (net w) + 1
    /\ objects w'
       = alter (fun c => setParent parentId
                           (setNetwork (lastAddedNodeIndex (net w) + 1) c))
           node (objects w).
Proof.
  intros Hfree Hmax. unfold addNode.
  destruct (MICROFLO_MAX_NODES <=? lastAddedNodeIndex (net w)) eqn:E;
    [lia |].
  rewrite (to_NodeId_small (lastAddedNodeIndex (net w) + 1)) by lia.
  eexists. split; [reflexivity |]. repeat split.
Qed.

Lemma addNodes_run (reqs : list (ptr * NodeId)) :
  forall (w w' : World) (rs : list (option NodeId)),
    0 <= lastAddedNodeIndex (net w) <= MICROFLO_MAX_NODES ->
    MICROFLO_MAX_NODES <= 255 ->
    Z.of_nat (length (nodes (net w))) = MICROFLO_MAX_NODES ->
    addNodes reqs w = (w', rs) ->
    let L := lastAddedNodeIndex (net w) in
    length rs = length reqs
    /\ (forall k : nat,
          (k < length reqs)%nat -> rs !! k = Some (idOfCall L k))
    /\ (forall (k : nat) p parent,
          reqs !! k = Some (p, parent) ->
          L + Z.of_nat k < MICROFLO_MAX_NODES ->
          nodes (net w') !! Z.to_nat (L + Z.of_nat k) = Some (Some p))
    /\ (forall i : nat,
          (i < Z.to_nat L)%nat -> nodes (net w') !! i = nodes (net w) !! i)
    /\ (forall p, ~ In p (map fst reqs) ->
          objects w' !! p = objects w !! p)
    /\ (List.NoDup (map fst reqs) ->
        forall (k : nat) p parent c,
          reqs !! k = Some (p, parent) ->
          L + Z.of_nat k < MICROFLO_MAX_NODES ->
          objects w !! p = Some c ->
          exists c',
            objects w' !! p = Some c'
            /\ nodeId c' = L + Z.of_nat k + 1
            /\ parentNodeId c' = to_NodeId parent
            /\ network c' = Some tt).
Proof.
  induction reqs as [| [p0 parent0] reqs IH];
    intros w w' rs HL Hmax Hlen Hrun L.
  - simpl in Hrun. injection Hrun as <- <-.
    split; [reflexivity |].
    split; [intros k Hk; simpl in Hk; lia |].
    split; [intros k p parent Hk; discriminate Hk |].
    split; [reflexivity |].
    split; [reflexivity |].
    intros _ k p parent c Hk. discriminate Hk.
  - simpl in Hrun.
    destruct (addNode p0 parent0 w) as [w1 r] eqn:Hadd.
    destruct (addNodes reqs w1) as [w2 rs'] eqn:Hrest.
    injection Hrun as <- <-.
    destruct (Z_lt_le_dec L MICROFLO_MAX_NODES) as [Hfree | Hfull].
    + (* the table has a free slot *)
      destruct (addNode_free p0 parent0 w ltac:(unfold L in *; lia) Hmax)
        as (w1' & Heq & Hnodes & Hlast & Hobjs).
      rewrite Hadd in Heq. injection Heq as Hw1 Hr. subst w1' r.
      assert (Hlen1 : Z.of_nat (length (nodes (net w1)))
                      = MICROFLO_MAX_NODES).
      { rewrite Hnodes, length_insert. exact Hlen. }
      specialize (IH w1 w2 rs' ltac:(rewrite Hlast; unfold L in *; lia)
                    Hmax Hlen1 Hrest).
      simpl in IH. rewrite Hlast in IH. fold L in IH.
      destruct IH as (IHlen & IHres & IHnodes & IHlow & IHobj & IHid).
      split; [simpl; rewrite IHlen; reflexivity |].
      split.
      { intros [| k] Hk; simpl in Hk |- *.
        - unfold idOfCall.
          destruct (L + Z.of_nat 0 <? MICROFLO_MAX_NODES) eqn:E;
            [| zbool; lia].
          do 3 f_equal. lia.
        - rewrite (IHres k ltac:(lia)). f_equal. unfold idOfCall.
          replace (L + 1 + Z.of_nat k) with (L + Z.of_nat (S k)) by lia.
          reflexivity. }
      split.
      { intros [| k] p parent Hk Hbound; simpl in Hk.
        - injection Hk as <- <-.
          replace (L + Z.of_nat 0) with L by lia.
          rewrite (IHlow (Z.to_nat L) ltac:(lia)), Hnodes.
          apply list_lookup_insert_eq. lia.
        - replace (L + Z.of_nat (S k)) with (L + 1 + Z.of_nat k) by lia.
          apply (IHnodes k p parent Hk). lia. }
      split.
      { intros i Hi. rewrite (IHlow i ltac:(lia)), Hnodes.
        apply list_lookup_insert_ne. fold L. lia. }
      split.
      { intros p Hp. simpl in Hp.
        rewrite (IHobj p ltac:(tauto)), Hobjs.
        apply list_lookup_alter_ne. tauto. }
      intros Hnd k p parent c Hk Hbound Hc. simpl in Hnd.
      apply List.NoDup_cons_iff in Hnd. destruct Hnd as [Hnotin Hnd].
      destruct k as [| k]; simpl in Hk.
      * injection Hk as <- <-.
        rewrite (IHobj p0 Hnotin), Hobjs, list_lookup_alter_eq, Hc.
        simpl. eexists. split; [reflexivity |]. simpl.
        fold L. rewrite to_NodeId_small by lia.
        split; [lia |]. split; reflexivity.
      * assert (Hne : p0 <> p).
        { intros ->. apply Hnotin. apply in_map_iff.
          exists (p, parent). split; [reflexivity |].
          apply list_elem_of_In. eapply list_elem_of_lookup_2. exact Hk. }
        destruct (IHid Hnd k p parent c Hk ltac:(lia)) as (c' & H1 & H2 & H3).
        { rewrite Hobjs. rewrite list_lookup_alter_ne by exact Hne.
          exact Hc. }
        exists c'. split; [exact H1 |]. split; [lia | exact H3].
    + (* the table is full *)
      destruct (addNode_full p0 parent0 w ltac:(unfold L in *; lia))
        as (w1' & Heq & Hnodes & Hlast & Hobjs).
      rewrite Hadd in Heq. injection Heq as Hw1 Hr. subst w1' r.
      assert (Hlen1 : Z.of_nat (length (nodes (net w1)))
                      = MICROFLO_MAX_NODES).
      { rewrite Hnodes. exact Hlen. }
      specialize (IH w1 w2 rs' ltac:(rewrite Hlast; exact HL)
                    Hmax Hlen1 Hrest).
      simpl in IH. rewrite Hlast in IH. fold L in IH.
      destruct IH as (IHlen & IHres & IHnodes & IHlow & IHobj & IHid).
      split; [simpl; rewrite IHlen; reflexivity |].
      split.
      { intros [| k] Hk; simpl in Hk |- *.
        - unfold idOfCall.
          destruct (L + Z.of_nat 0 <? MICROFLO_MAX_NODES) eqn:E;
            [zbool; lia | reflexivity].
        - rewrite (IHres k ltac:(lia)). f_equal. unfold idOfCall.
          destruct (L + Z.of_nat k <? MICROFLO_MAX_NODES) eqn:E1;
            [zbool; lia |].
          destruct (L + Z.of_nat (S k) <? MICROFLO_MAX_NODES) eqn:E2;
            [zbool; lia | reflexivity]. }
      split; [intros k p parent Hk Hbound; lia |].
      split; [intros i Hi; rewrite (IHlow i Hi), Hnodes; reflexivity |].
      split.
      { intros p Hp. simpl in Hp. rewrite (IHobj p ltac:(tauto)), Hobjs.
        reflexivity. }
      intros _ k p parent c Hk Hbound. lia.
Qed.

(** C1. Nodes are added to a new network one after the other.  The call
    number k (from 0) is accepted exactly while the table has room, its
    node is stored at index k and gets the id k + 1: ids start at
    firstNodeId, follow the insertion order without gaps and no two calls
    get the same one; at the end of the run [nodes[id - 1]] is still that
    node, and, when every component is added once, the component's own id
    is that id. *)
Theorem Network_addNode_id_is_index_plus_1 (objs : list Component)
  (e : Env) (reqs : list (ptr * NodeId)) (w : World)
  (rs : list (option NodeId)) :
  0 <= MICROFLO_MAX_NODES <= 255 ->
  addNodes reqs {| net := new; objects := objs; env := e |} = (w, rs) ->
  (forall k : nat,
      (k < length reqs)%nat ->
      rs !! k = Some (if Z.of_nat k <? MICROFLO_MAX_NODES
                      then Some (firstNodeId + Z.of_nat k) else None))
  /\ (forall (k : nat) p parent i,
        reqs !! k = Some (p, parent) ->
        rs !! k = Some (Some i) ->
        i = Z.of_nat k + 1
        /\ firstNodeId <= i <= 255
        /\ nodes (net w) !! k = Some (Some p)
        /\ nodes (net w) !! Z.to_nat (i - 1) = Some (Some p)
        /\ (List.NoDup (map fst reqs) ->
            forall c, objs !! p = Some c ->
            exists c', objects w !! p = Some c' /\ Component_id c' = i))
  /\ (forall (j k : nat) i,
        rs !! j = Some (Some i) -> rs !! k = Some (Some i) -> j = k).
Proof.
  intros Hmax Hrun.
  pose proof (addNodes_run reqs {| net := new; objects := objs; env := e |}
                w rs) as Hgen.
  simpl in Hgen.
  specialize (Hgen ltac:(lia) ltac:(lia)).
  rewrite length_replicate in Hgen.
  specialize (Hgen ltac:(lia) Hrun).
  destruct Hgen as (Hlen & Hres & Hnodes & _ & _ & Hid).
  assert (Hshape : forall (k : nat) i,
             rs !! k = Some (Some i) ->
             (k < length reqs)%nat
             /\ Z.of_nat k < MICROFLO_MAX_NODES /\ i = Z.of_nat k + 1).
  { intros k i Hk.
    assert (Hlt : (k < length reqs)%nat).
    { rewrite <- Hlen. eapply lookup_lt_Some. exact Hk. }
    split; [exact Hlt |].
    rewrite (Hres k Hlt) in Hk. unfold idOfCall in Hk.
    destruct (0 + Z.of_nat k <? MICROFLO_MAX_NODES) eqn:E;
      [| discriminate Hk].
    injection Hk as <-. zbool. lia. }
  split.
  { intros k Hk. rewrite (Hres k Hk). unfold idOfCall, firstNodeId.
    rewrite Z.add_0_l.
    destruct (Z.of_nat k <? MICROFLO_MAX_NODES); do 2 f_equal. lia. }
  split.
  { intros k p parent i Hreq Hk.
    destruct (Hshape k i Hk) as (Hlt & Hroom & ->).
    split; [reflexivity |].
    split; [unfold firstNodeId; lia |].
    pose proof (Hnodes k p parent Hreq ltac:(lia)) as Hslot.
    rewrite Z.add_0_l, Nat2Z.id in Hslot.
    split; [exact Hslot |].
    split.
    { replace (Z.to_nat (Z.of_nat k + 1 - 1)) with k by lia. exact Hslot. }
    intros Hnd c Hc.
    destruct (Hid Hnd k p parent c Hreq ltac:(lia) Hc)
      as (c' & Hc' & Hnid & _).
    exists c'. split; [exact Hc' |]. unfold Component_id. lia. }
  intros j k i Hj Hk.
  destruct (Hshape j i Hj) as (_ & _ & Hij).
  destruct (Hshape k i Hk) as (_ & _ & Hik). lia.
Qed.
End NodeTableFacts.

(** C1, witness: in the default build three components are added to a new
    network and get the ids 1, 2 and 3. *)
Lemma Network_addNode_three_nodes :
  let objs := replicate 3 (Component_new [] 0) in
  let reqs := [(0%nat, 0); (1%nat, 0); (2%nat, 1)] in
  let run := Network.addNodes (b := default_build)
               (cf := sample_commandformat) (sp := sample_spec_constants)
               reqs (sink_world sample_network objs) in
  0 <= MICROFLO_MAX_NODES (b := default_build) <= 255
  /\ snd run = [Some 1; Some 2; Some 3]
  /\ Network.nodes (Network.net (fst run)) !! Z.to_nat (3 - 1)
     = Some (Some 2%nat)
  /\ (exists c, Network.objects (fst run) !! 2%nat = Some c
                /\ Component_id c = 3).
Proof.
  pose proof (Network_addNode_id_is_index_plus_1 (b := default_build)
                (cf := sample_commandformat) (sp := sample_spec_constants)
                (cs := sink_components)
                (replicate 3 (Component_new [] 0)) (tt : @Env sink_components)
                [(0%nat, 0); (1%nat, 0); (2%nat, 1)] _ _
                ltac:(vm_compute; split; discriminate) eq_refl) as H.
  destruct H as (_ & H & _).
  destruct (H 2%nat 2%nat 1 3 eq_refl eq_refl) as (_ & _ & _ & Hslot & Hid).
  split; [vm_compute; split; discriminate |].
  split; [reflexivity |].
  split; [exact Hslot |].
  apply (Hid ltac:(repeat constructor; simpl; intuition discriminate)
           (Component_new [] 0) eq_refl).
Defined.

Section QueueFacts.
Context {b : Build} {cf : CommandFormat} {sp : SpecConstants}.
Import Network.

Lemma mod_wrap (C x : Z) :
  0 < C -> - C <= x < 2 * C ->
  x mod C = if x <? 0 then x + C else if x <? C then x else x - C.
Proof.
  intros HC Hx. symmetry.
  destruct (x <? 0) eqn:E0; [| destruct (x <? C) eqn:E1]; zbool.
  - apply (Z.mod_unique x C (-1)); lia.
  - apply (Z.mod_unique x C 0); lia.
  - apply (Z.mod_unique x C 1); lia.
Qed.

Lemma slotOf_lt (i : Z) (l : list Message) :
  0 < MICROFLO_MAX_MESSAGES ->
  Z.of_nat (length l) = MICROFLO_MAX_MESSAGES ->
  (slotOf i < length l)%nat.
Proof.
  intros HC Hlen. unfold slotOf.
  pose proof (Z.mod_pos_bound i _ HC). lia.
Qed.

(** Two indices less than the capacity apart have different slots. *)
Lemma slotOf_ne (i j : Z) :
  0 < MICROFLO_MAX_MESSAGES ->
  0 < j - i < MICROFLO_MAX_MESSAGES ->
  slotOf i <> slotOf j.
Proof.
  intros HC Hd Heq. unfold slotOf in Heq.
  pose proof (Z.mod_pos_bound i _ HC).
  pose proof (Z.mod_pos_bound j _ HC).
  assert (E : i mod MICROFLO_MAX_MESSAGES = j mod MICROFLO_MAX_MESSAGES)
    by lia.
  assert (Hz : (j - i) mod MICROFLO_MAX_MESSAGES = 0).
  { rewrite Zminus_mod, E, Z.sub_diag. apply Z.mod_0_l. lia. }
  rewrite Z.mod_small in Hz by lia. lia.
Qed.




Lemma window_length (n : t) : length (window n) = Z.to_nat (queued n).
Proof. unfold window. rewrite length_map, length_seq. reflexivity. Qed.

Lemma window_nil (n : t) :
  queue_ok n -> (window n = [] <-> messageReadIndex n = messageWriteIndex n).
Proof.
  intros (HC & _ & Hr & Hw). split; intros H.
  - apply (f_equal (@length _)) in H. rewrite window_length in H.
    unfold queued in H. simpl in H. lia.
  - unfold window, queued. rewrite H, Z.sub_diag. reflexivity.
Qed.

Lemma notify_queue (e : Notification) (n : t) :
  messages (notify e n) = messages n
  /\ messageReadIndex (notify e n) = messageReadIndex n
  /\ messageWriteIndex (notify e n) = messageWriteIndex n.
Proof. repeat split. Qed.

Lemma window_ext (n n' : t) :
  messages n' = messages n ->
  messageReadIndex n' = messageReadIndex n ->
  messageWriteIndex n' = messageWriteIndex n ->
  window n' = window n.
Proof.
  intros Hm Hr Hw. unfold window, queued, slot. rewrite Hm, Hr, Hw.
  reflexivity.
Qed.

Lemma queue_ok_ext (n n' : t) :
  messages n' = messages n ->
  messageReadIndex n' = messageReadIndex n ->
  messageWriteIndex n' = messageWriteIndex n ->
  queue_ok n -> queue_ok n'.
Proof.
  intros Hm Hr Hw. unfold queue_ok. rewrite Hm, Hr, Hw. tauto.
Qed.


Lemma sendMessage_rejected tgt tgtPort p sender senderPort (n : t) :
  queueFull n = true ->
  sendMessage tgt tgtPort p sender senderPort n
  = emitDebug DebugLevelError DebugMessageQueueFull n.
Proof. intros H. unfold sendMessage. rewrite H. reflexivity. Qed.

Lemma sendMessage_accepted tgt tgtPort p sender senderPort (n : t) :
  queue_ok n ->
  queueFull n = false ->
  let m := {| target := tgt; targetPort := tgtPort; pkg := p |} in
  let n' := sendMessage tgt tgtPort p sender senderPort n in
  notificationHandler n'
  = hears [PacketSent (messageWriteIndex n) m sender senderPort]
      (notificationHandler n)
  /\ messageReadIndex n' = messageReadIndex n
  /\ messageWriteIndex n' = messageWriteIndex n + 1
  /\ messages n' !! slotOf (messageWriteIndex n) = Some m
  /\ window n' = window n ++ [m]
  /\ queue_ok n'.
Proof.
  intros Hok Hfull m n'. subst n'. unfold sendMessage. rewrite Hfull.
  fold m. destruct Hok as (HC & Hlen & Hr & Hw).
  unfold queueFull in Hfull. zbool.
  split; [reflexivity |]. split; [reflexivity |]. split; [reflexivity |].
  split.
  { simpl. apply list_lookup_insert_eq. apply slotOf_lt; assumption. }
  split.
  - unfold window at 1. unfold queued. simpl.
    assert (Hq : Z.to_nat (messageWriteIndex n + 1 - messageReadIndex n)
                 = S (Z.to_nat (queued n))) by (unfold queued; lia).
    rewrite Hq, seq_S, map_app. simpl. unfold window. f_equal.
    + apply map_ext_in. intros k Hk. apply in_seq in Hk.
      unfold slot. simpl. rewrite list_lookup_insert_ne; [reflexivity |].
      intros Heq. symmetry in Heq. revert Heq. apply slotOf_ne; [exact HC |].
      unfold queued in Hk. lia.
    + f_equal. unfold slot. simpl.
      replace (messageReadIndex n + Z.of_nat (Z.to_nat (queued n)))
        with (messageWriteIndex n) by (unfold queued; lia).
      rewrite list_lookup_insert_eq by (apply slotOf_lt; assumption).
      reflexivity.
  - unfold queue_ok. simpl. rewrite length_insert.
    split; [exact HC |]. split; [exact Hlen |]. lia.
Qed.


Lemma dequeue_None (n : t) :
  dequeue n = None <-> messageReadIndex n = messageWriteIndex n.
Proof.
  unfold dequeue.
  destruct (messageReadIndex n =? messageWriteIndex n) eqn:E; zbool;
    split; intros H; try discriminate H; try reflexivity; try lia;
    try exact E.
Qed.

Lemma dequeue_Some (n n1 : t) (index : Z) (m : Message) :
  queue_ok n ->
  dequeue n = Some (index, m, n1) ->
  index = messageReadIndex n
  /\ window n = m :: window n1
  /\ messageReadIndex n1 = messageReadIndex n + 1
  /\ messageWriteIndex n1 = messageWriteIndex n
  /\ notificationHandler n1 = notificationHandler n
  /\ state n1 = state n
  /\ queue_ok n1.
Proof.
  intros (HC & Hlen & Hr & Hw) Hdq. unfold dequeue in Hdq.
  destruct (messageReadIndex n =? messageWriteIndex n) eqn:E;
    [discriminate Hdq |].
  injection Hdq as <- <- <-. zbool.
  split; [reflexivity |]. split.
  - unfold window, queued. simpl.
    assert (Hq : Z.to_nat (messageWriteIndex n - messageReadIndex n)
                 = S (Z.to_nat (messageWriteIndex n
                                - (messageReadIndex n + 1)))) by lia.
    rewrite Hq. simpl seq. simpl map. f_equal.
    + unfold slot. do 3 f_equal. lia.
    + rewrite <- seq_shift, map_map. apply map_ext_in.
      intros k Hk. unfold slot. simpl. do 3 f_equal. lia.
  - simpl. do 4 (split; [reflexivity |]).
    unfold queue_ok. simpl.
    split; [exact HC |]. split; [exact Hlen |]. lia.
Qed.

(** After a message has been taken off, the queue is not full. *)
Lemma dequeue_not_full (n n1 : t) (index : Z) (m : Message) :
  queue_ok n ->
  dequeue n = Some (index, m, n1) ->
  queueFull n1 = false.
Proof.
  intros (HC & Hlen & Hr & Hw) Hdq. unfold dequeue in Hdq.
  destruct (messageReadIndex n =? messageWriteIndex n) eqn:E;
    [discriminate Hdq |].
  injection Hdq as <- <- <-. zbool. unfold queueFull. simpl.
  apply Z.leb_gt. lia.
Qed.

Lemma grows_refl (n : t) : queue_ok n -> grows n n [].
Proof.
  intros Hok. unfold grows. simpl. rewrite hears_nil, !app_nil_r. tauto.
Qed.

Lemma grows_trans (n n1 n2 : t) (e1 e2 : list Notification) :
  grows n n1 e1 -> grows n1 n2 e2 -> grows n n2 (e1 ++ e2).
Proof.
  intros (Hh1 & Hr1 & Hw1 & Hd1 & Hs1 & _) (Hh2 & Hr2 & Hw2 & Hd2 & Hs2 & Hok).
  unfold grows, sentOf, deliveredOf in *.
  rewrite !flat_map_app, Hh2, Hh1, hears_app, Hr2, Hr1, Hw2, Hw1, Hd1, Hd2,
    Hs2, Hs1.
  rewrite !app_assoc. tauto.
Qed.

Lemma notify_grows (e : Notification) (n : t) :
  queue_ok n -> sentOf [e] = [] -> deliveredOf [e] = [] ->
  grows n (notify e n) [e].
Proof.
  intros Hok Hs Hd. unfold grows. rewrite Hs, Hd, app_nil_r.
  split; [reflexivity |]. split; [reflexivity |].
  split; [apply window_ext; reflexivity |].
  split; [reflexivity |]. split; [reflexivity |].
  apply (queue_ok_ext n); try reflexivity. exact Hok.
Qed.

Lemma emitDebug_grows (level code : Z) (n : t) :
  queue_ok n -> exists extra, grows n (emitDebug level code n) extra.
Proof.
  intros Hok. unfold emitDebug. destruct (level <=? debugLevel n).
  - eexists. apply notify_grows; [exact Hok | reflexivity | reflexivity].
  - exists []. apply grows_refl. exact Hok.
Qed.

Lemma sendMessage_grows tgt tgtPort p sender senderPort (n : t) :
  queue_ok n ->
  exists extra, grows n (sendMessage tgt tgtPort p sender senderPort n) extra.
Proof.
  intros Hok. destruct (queueFull n) eqn:Hfull.
  - rewrite sendMessage_rejected by exact Hfull.
    apply emitDebug_grows. exact Hok.
  - destruct (sendMessage_accepted tgt tgtPort p sender senderPort n Hok Hfull)
      as (Hh & Hr & _ & _ & Hwin & Hok').
    eexists. unfold grows. rewrite Hh, Hr, Hwin.
    split; [reflexivity |]. split; [reflexivity |].
    split; [reflexivity |]. split; [reflexivity |].
    split; [| exact Hok'].
    unfold sendMessage. rewrite Hfull. reflexivity.
Qed.

Lemma sendCalls_grows (calls : list SendCall) :
  forall n : t, queue_ok n -> exists extra, grows n (sendCalls calls n) extra.
Proof.
  induction calls as [| c calls IH]; intros n Hok.
  - exists []. apply grows_refl. exact Hok.
  - unfold sendCalls. simpl. fold (sendCalls calls (sendCall c n)).
    destruct (sendMessage_grows (sc_target c) (sc_targetPort c) (sc_pkg c)
                (sc_sender c) (sc_senderPort c) n Hok) as (e1 & H1).
    fold (sendCall c n) in H1.
    destruct (IH (sendCall c n) ltac:(apply H1)) as (e2 & H2).
    exists (e1 ++ e2). exact (grows_trans _ _ _ _ _ H1 H2).
Qed.
End QueueFacts.

Section SchedulingFacts.
Context {b : Build} {cf : CommandFormat} {sp : SpecConstants}
  {cs : Components}.
Import Network.




(** One delivery: the sends of the component are forwarded, then the
    delivery. *)
Lemma deliver_grows (index : Z) (m : Message) (w : World) :
  queue_ok (net w) ->
  exists extra,
    notificationHandler (net (deliver index m w))
    = hears (extra ++ [PacketDelivered index m])
        (notificationHandler (net w))
    /\ messageReadIndex (net (deliver index m w)) = messageReadIndex (net w)
    /\ window (net (deliver index m w)) = window (net w) ++ sentOf extra
    /\ deliveredOf extra = []
    /\ state (net (deliver index m w)) = state (net w)
    /\ queue_ok (net (deliver index m w)).
Proof.
  intros Hok. unfold deliver.
  destruct (process (target m) (pkg m) (targetPort m) (objects w) (env w))
    as [[objs e] calls].
  simpl.
  destruct (sendCalls_grows calls (net w) Hok)
    as (extra & Hh & Hr & Hwin & Hd & Hs & Hok').
  exists extra. rewrite Hh, hears_app, <- Hwin, <- Hr, <- Hs.
  split; [reflexivity |]. split; [reflexivity |].
  split; [apply window_ext; reflexivity |].
  split; [exact Hd |]. split; [reflexivity |].
  apply (queue_ok_ext (sendCalls calls (net w))); try reflexivity.
  exact Hok'.
Qed.

(** The delivery loop hands over, in order, the messages that were queued
    when it started followed by the messages accepted while it ran, and
    it ends with an empty queue. *)
Lemma processMessages_fifo (fuel : nat) :
  forall w w' : World,
    queue_ok (net w) ->
    processMessages fuel w = Some w' ->
    exists extra,
      notificationHandler (net w')
      = hears extra (notificationHandler (net w))
      /\ window (net w) ++ sentOf extra = deliveredOf extra
      /\ messageReadIndex (net w') = messageWriteIndex (net w')
      /\ state (net w') = state (net w)
      /\ queue_ok (net w').
Proof.
  induction fuel as [| fuel IH]; intros w w' Hok Hrun; simpl in Hrun;
    destruct (dequeue (net w)) as [[[index m] n1] |] eqn:Hdq.
  - discriminate Hrun.
  - injection Hrun as <-. exists []. rewrite hears_nil, !app_nil_r.
    apply dequeue_None in Hdq.
    split; [reflexivity |].
    split; [simpl; apply (window_nil (net w) Hok); exact Hdq |].
    split; [exact Hdq |]. split; [reflexivity | exact Hok].
  - destruct (dequeue_Some (net w) n1 index m Hok Hdq)
      as (_ & Hwin & _ & _ & Hh1 & Hs1 & Hok1).
    destruct (deliver_grows index m (set_net n1 w) Hok1)
      as (e1 & Hh2 & _ & Hwin2 & Hd2 & Hs2 & Hok2).
    destruct (IH _ w' Hok2 Hrun) as (e2 & Hh3 & Hfifo & Hrw & Hs3 & Hok3).
    exists (e1 ++ [PacketDelivered index m] ++ e2).
    split.
    { rewrite Hh3, Hh2, hears_app. simpl. rewrite Hh1, <- !app_assoc.
      reflexivity. }
    split.
    { unfold sentOf, deliveredOf in *. rewrite !flat_map_app, Hd2. simpl.
      rewrite Hwin. simpl. f_equal. rewrite <- Hfifo, Hwin2. simpl.
      rewrite <- app_assoc. reflexivity. }
    split; [exact Hrw |].
    split; [rewrite Hs3, Hs2; exact Hs1 | exact Hok3].
  - injection Hrun as <-. exists []. rewrite hears_nil, !app_nil_r.
    apply dequeue_None in Hdq.
    split; [reflexivity |].
    split; [simpl; apply (window_nil (net w) Hok); exact Hdq |].
    split; [exact Hdq |]. split; [reflexivity | exact Hok].
Qed.

(** The loop ends when no component sends: the queue then shrinks by one
    message with every delivery. *)
Lemma processMessages_returns_without_sends (fuel : nat) :
  (forall tgt p port objs e, snd (process tgt p port objs e) = []) ->
  forall w : World,
    queue_ok (net w) ->
    (length (window (net w)) <= fuel)%nat ->
    exists w', processMessages fuel w = Some w'.
Proof.
  intros Hquiet.
  induction fuel as [| fuel IH]; intros w Hok Hlen; simpl;
    destruct (dequeue (net w)) as [[[index m] n1] |] eqn:Hdq;
    try (eexists; reflexivity).
  - destruct (dequeue_Some (net w) n1 index m Hok Hdq) as (_ & Hwin & _).
    rewrite Hwin in Hlen. simpl in Hlen. lia.
  - destruct (dequeue_Some (net w) n1 index m Hok Hdq)
      as (_ & Hwin & _ & _ & _ & _ & Hok1).
    apply IH.
    + destruct (deliver_grows index m (set_net n1 w) Hok1)
        as (extra & _ & _ & _ & _ & _ & Hok2).
      exact Hok2.
    + unfold deliver.
      pose proof (Hquiet (target m) (pkg m) (targetPort m)
                    (objects (set_net n1 w)) (env (set_net n1 w))) as Hq.
      destruct (process (target m) (pkg m) (targetPort m)
                  (objects (set_net n1 w)) (env (set_net n1 w)))
        as [[objs e] calls].
      simpl in Hq. subst calls. simpl.
      rewrite (window_ext n1 (notify (PacketDelivered index m) n1))
        by reflexivity.
      rewrite Hwin in Hlen. simpl in Hlen. lia.
Qed.

Lemma fold_handTo_without_sends (pkt : Packet) (l : list (option ptr)) :
  (forall tgt p port objs e, snd (process tgt p port objs e) = []) ->
  forall w : World, net (fold_left (handTo pkt) l w) = net w.
Proof.
  intros Hquiet. induction l as [| node l IH]; intros w; [reflexivity |].
  simpl. rewrite IH. unfold handTo.
  pose proof (Hquiet node pkt lifecyclePort (objects w) (env w)) as Hq.
  destruct (process node pkt lifecyclePort (objects w) (env w))
    as [[objs e] calls].
  simpl in Hq. subst calls. reflexivity.
Qed.

(** [runTick] returns, given as much fuel as there are messages in the
    queue, when no component sends. *)
Lemma runTick_returns_without_sends (fuel : nat) (w : World) :
  (forall tgt p port objs e, snd (process tgt p port objs e) = []) ->
  queue_ok (net w) ->
  (length (window (net w)) <= fuel)%nat ->
  exists w', runTick fuel w = Some w'.
Proof.
  intros Hquiet Hok Hlen. unfold runTick.
  destruct (state (net w)); try (eexists; reflexivity).
  destruct (processMessages_returns_without_sends fuel Hquiet w Hok Hlen)
    as (w1 & H1).
  rewrite H1.
  destruct (processMessages_fifo fuel w w1 Hok H1)
    as (_ & _ & _ & Hrw & _ & Hok1).
  apply (processMessages_returns_without_sends fuel Hquiet).
  - unfold broadcast. rewrite fold_handTo_without_sends by exact Hquiet.
    exact Hok1.
  - unfold broadcast. rewrite fold_handTo_without_sends by exact Hquiet.
    apply (window_nil (net w1) Hok1) in Hrw. rewrite Hrw. simpl. lia.
Qed.
End SchedulingFacts.

Section EchoFacts.
Context {b : Build} {cf : CommandFormat} {sp : SpecConstants}.
Import Network.

(** The delivery loop does not end for every component library: where each
    delivery sends a message, a queue that holds a message never becomes
    empty, whatever the fuel. *)
Lemma processMessages_may_not_return (fuel : nat) :
  forall w : World (cs := echo_components),
    queue_ok (net w) ->
    window (net w) <> [] ->
    processMessages fuel w = None.
Proof.
  induction fuel as [| fuel IH]; intros w Hok Hne; simpl;
    destruct (dequeue (net w)) as [[[index m] n1] |] eqn:Hdq;
    try reflexivity.
  - exfalso. apply Hne. apply (window_nil (net w) Hok).
    apply dequeue_None. exact Hdq.
  - destruct (dequeue_Some (net w) n1 index m Hok Hdq)
      as (_ & _ & _ & _ & _ & _ & Hok1).
    pose proof (dequeue_not_full (net w) n1 index m Hok Hdq) as Hroom.
    destruct (sendMessage_accepted (target m) (targetPort m) (pkg m)
                (target m) 0 n1 Hok1 Hroom) as (_ & _ & _ & _ & Hwin & Hok2).
    apply IH.
    + unfold deliver. simpl. unfold sendCalls, sendCall. simpl.
      apply (queue_ok_ext
               (sendMessage (target m) (targetPort m) (pkg m) (target m) 0
                  n1)); try reflexivity.
      exact Hok2.
    + unfold deliver. simpl. unfold sendCalls, sendCall. simpl.
      rewrite (window_ext
                 (sendMessage (target m) (targetPort m) (pkg m) (target m) 0
                    n1)) by reflexivity.
      rewrite Hwin. intros H. destruct (window n1); discriminate H.
  - exfalso. apply Hne. apply (window_nil (net w) Hok).
    apply dequeue_None. exact Hdq.
Qed.
End EchoFacts.

Section TickFacts.
Context {b : Build} {cf : CommandFormat} {sp : SpecConstants}
  {cs : Components}.
Import Network.



End TickFacts.



(** The queue of a build with room for four messages, filled by the host
    before any tick: four messages are accepted, the fifth is refused with
    MessageQueueFull and the window still holds the first four. *)
Lemma Network_queue_overflow_example :
  let m := {| target := Some 0%nat; targetPort := 0;
              pkg := Packet_byte (cf := sample_commandformat) 42 |} in
  let send := Network.sendMessage (b := small_queue_build)
                (cf := sample_commandformat) (sp := sample_spec_constants)
                (Some 0%nat) 0 (Packet_byte (cf := sample_commandformat) 42)
                None (-1) in
  let n0 := Network.setNotificationHandler (Some [])
              (Network.new (b := small_queue_build)
                 (cf := sample_commandformat)
                 (sp := sample_spec_constants)) in
  let n5 := send (send (send (send (send n0)))) in
  Network.notificationHandler n5
  = Some [PacketSent 0 m None (-1); PacketSent 1 m None (-1);
          PacketSent 2 m None (-1); PacketSent 3 m None (-1);
          EmitDebug 1 21]
  /\ Network.window (b := small_queue_build) (cf := sample_commandformat) n5
     = [m; m; m; m]
  /\ Network.queueFull (b := small_queue_build) n5 = true.
Proof. repeat split. Qed.

(* ===================================================================== *)
(** * Further properties of the header and of the Stellaris backend       *)
(* ===================================================================== *)

Section PortFacts.
Lemma to_PortId_range (z : Z) : -128 <= to_PortId z <= 127.
Proof.
  unfold to_PortId, wrap_signed, PortId_bits.
  pose proof (Z.mod_pos_bound (z + 2 ^ (8 - 1)) (2 ^ 8) ltac:(lia)).
  change (2 ^ (8 - 1)) with 128 in *. change (2 ^ 8) with 256 in *. lia.
Qed.

Lemma to_PortId_shift (z : Z) :
  to_PortId z = z - 256 * ((z + 128) / 256).
Proof.
  unfold to_PortId, wrap_signed, PortId_bits.
  change (2 ^ (8 - 1)) with 128. change (2 ^ 8) with 256.
  rewrite Z.mod_eq by lia. lia.
Qed.

(** X1. [PortId] is a signed 8 bit integer: the conversion to it keeps
    exactly the values -128..127.  The port limit [MICROFLO_MAX_PORTS] =
    255 is not among them: as a [PortId] it is -1, the value that
    [sendMessage] takes for "no sender port", and every port number from
    128 to 255 becomes negative; the ten ports of a subgraph fit. *)
Theorem PortId_range_and_MAX_PORTS :
  PortId_bits = 8
  /\ (forall z, -128 <= to_PortId z <= 127)
  /\ (forall z, to_PortId z = z <-> -128 <= z <= 127)
  /\ (forall z, to_PortId (z + 256) = to_PortId z)
  /\ to_PortId MICROFLO_MAX_PORTS = -1
  /\ (forall p, 128 <= p <= MICROFLO_MAX_PORTS ->
        to_PortId p = p - 256 /\ to_PortId p < 0)
  /\ (forall p, 0 <= p < MICROFLO_SUBGRAPH_MAXPORTS -> to_PortId p = p).
Proof.
  split; [reflexivity |].
  split; [exact to_PortId_range |].
  split.
  { intros z. split.
    - intros Hz. pose proof (to_PortId_range z). lia.
    - intros Hz. rewrite to_PortId_shift.
      rewrite (Z.div_small (z + 128) 256) by lia. lia. }
  split.
  { intros z. rewrite !to_PortId_shift.
    replace (z + 256 + 128) with (z + 128 + 1 * 256) by lia.
    rewrite Z.div_add by lia. lia. }
  split; [reflexivity |].
  split.
  { unfold MICROFLO_MAX_PORTS. intros p Hp. rewrite to_PortId_shift.
    replace ((p + 128) / 256) with 1; [lia |].
    apply (Z.div_unique (p + 128) 256 1 (p - 128)); lia. }
  unfold MICROFLO_SUBGRAPH_MAXPORTS. intros p Hp. rewrite to_PortId_shift.
  rewrite (Z.div_small (p + 128) 256) by lia. lia.
Qed.
End PortFacts.

Section ParentFacts.
(** X2. [setParent(int)] stores the parent modulo 256 in the 8 bit field:
    the stored parent is never negative (a component cannot be marked
    top-level by a parent below 0), it equals the argument exactly for
    0..255, arguments that differ by 256 cannot be told apart, the last
    call wins, and no other member changes. *)
Theorem setParent_stores_mod_256 (parentId : Z) (c : Component) :
  parentNodeId (setParent parentId c) = parentId mod 256
  /\ 0 <= parentNodeId (setParent parentId c) <= 255
  /\ (parentNodeId (setParent parentId c) = parentId
      <-> 0 <= parentId <= 255)
  /\ setParent (parentId + 256) c = setParent parentId c
  /\ (forall q, setParent q (setParent parentId c) = setParent q c)
  /\ Component_id (setParent parentId c) = Component_id c
  /\ Component_component (setParent parentId c) = Component_component c
  /\ connections (setParent parentId c) = connections c
  /\ nPorts (setParent parentId c) = nPorts c
  /\ fields (setParent parentId c) = fields c.
Proof.
  split; [reflexivity |].
  split; [apply to_NodeId_range |].
  split.
  { simpl. split.
    - intros H. pose proof (to_NodeId_range parentId). lia.
    - apply to_NodeId_small. }
  split.
  { unfold setParent. f_equal. unfold to_NodeId, wrap_unsigned, NodeId_bits.
    change (2 ^ 8) with 256.
    replace (parentId + 256) with (parentId + 1 * 256) by lia.
    apply Z.mod_add. lia. }
  repeat split.
Qed.
End ParentFacts.

Section PacketKindFacts.
Context {cf : CommandFormat}.

(** X3. Whatever the numbering of the kinds: a data packet is valid and
    neither Setup nor Tick; a valid packet is either data or special, not
    both; a packet of the kind Invalid or MaxDefined is never valid, hence
    never data; and validity depends on the kind alone, not on the
    payload. *)
Theorem Packet_validity_relations (p : Packet) :
  (isData p = true -> isValid p = true)
  /\ (isData p = true -> isSetup p = false /\ isTick p = false)
  /\ (isValid p = true -> isData p = negb (isSpecial p))
  /\ (isValid p = false -> isData p = false)
  /\ isValid (Packet_msg MsgInvalid) = false
  /\ isValid (Packet_msg MsgMaxDefined) = false
  /\ isData (Packet_msg MsgInvalid) = false
  /\ isData (Packet_msg MsgMaxDefined) = false
  /\ (forall q, msg q = msg p ->
        isValid q = isValid p /\ isData q = isData p
        /\ isNumber q = isNumber p)
  /\ (MsgMaxDefined <= MsgInvalid + 1 -> isValid p = false).
Proof.
  unfold isData, isSpecial, isValid, isNumber, isInteger, isFloat, isSetup,
    isTick, Packet_msg. simpl.
  split; [intros H; apply andb_true_iff in H; tauto |].
  split.
  { intros H. apply andb_true_iff in H. destruct H as [_ H].
    apply negb_true_iff, orb_false_iff in H. exact H. }
  split; [intros ->; reflexivity |].
  split; [intros ->; reflexivity |].
  split; [rewrite Z.ltb_irrefl; reflexivity |].
  split; [rewrite Z.ltb_irrefl; apply andb_false_r |].
  split; [rewrite Z.ltb_irrefl; reflexivity |].
  split; [rewrite Z.ltb_irrefl, andb_false_r; reflexivity |].
  split; [intros q ->; repeat split |].
  intros H.
  destruct (MsgInvalid <? msg p) eqn:E1;
    destruct (msg p <? MsgMaxDefined) eqn:E2; try reflexivity.
  zbool. lia.
Qed.

(** X4. When the six kinds Void, Boolean, Ascii, Byte, Integer and Float
    have different numbers, the kind predicates tell the constructors
    apart: each constructor's packet satisfies its own predicate and none
    of the other five, and [isNumber] holds for [Packet(long)] and
    [Packet(float)] and for no other constructor. *)
Theorem Packet_constructors_told_apart (b : bool) (c : ascii) (by_ l f : Z) :
  List.NoDup payloadKinds ->
  let kinds p :=
    (isVoid p, isBool p, isAscii p, isByte p, isInteger p, isFloat p) in
  kinds Packet_void = (true, false, false, false, false, false)
  /\ kinds (Packet_bool b) = (false, true, false, false, false, false)
  /\ kinds (Packet_char c) = (false, false, true, false, false, false)
  /\ kinds (Packet_byte by_) = (false, false, false, true, false, false)
  /\ kinds (Packet_long l) = (false, false, false, false, true, false)
  /\ kinds (Packet_float f) = (false, false, false, false, false, true)
  /\ map isNumber [Packet_void; Packet_bool b; Packet_char c;
                   Packet_byte by_; Packet_long l; Packet_float f]
     = [false; false; false; false; true; true].
Proof.
  intros Hnd kinds. subst kinds.
  unfold payloadKinds in Hnd.
  repeat match goal with
    | H : List.NoDup (_ :: _) |- _ =>
        apply List.NoDup_cons_iff in H; destruct H as [? H]
    end.
  simpl in *.
  unfold isNumber, isVoid, isBool, isAscii, isByte, isInteger, isFloat,
    Packet_void, Packet_bool, Packet_char, Packet_byte, Packet_long,
    Packet_float.
  simpl.
  rewrite !Z.eqb_refl.
  repeat match goal with
    | |- context [?x =? ?y] =>
        let E := fresh "E" in
        destruct (x =? y) eqn:E;
        [apply Z.eqb_eq in E; exfalso; intuition congruence |]
    end.
  repeat split.
Qed.
End PacketKindFacts.

(** X4, witness: the sample numbering gives the six kinds different
    numbers. *)
Lemma Packet_constructors_sample :
  List.NoDup (payloadKinds (cf := sample_commandformat))
  /\ map (isNumber (cf := sample_commandformat))
       [Packet_void (cf := sample_commandformat);
        Packet_bool (cf := sample_commandformat) true;
        Packet_char (cf := sample_commandformat) "a"%char;
        Packet_byte (cf := sample_commandformat) 300;
        Packet_long (cf := sample_commandformat) 7;
        Packet_float (cf := sample_commandformat) 0]
     = [false; false; false; false; true; true].
Proof.
  assert (Hnd : List.NoDup (payloadKinds (cf := sample_commandformat))).
  { repeat constructor; simpl; intuition discriminate. }
  split; [exact Hnd |].
  exact (proj2 (proj2 (proj2 (proj2 (proj2 (proj2
    (Packet_constructors_told_apart (cf := sample_commandformat)
       true "a"%char 300 7 0 Hnd))))))).
Defined.

Section PinFacts.
Context {dl : Driverlib} {cf : CommandFormat}.
Import StellarisHw.

Lemma table_at_6 (a0 a1 a2 a3 a4 a5 i : Z) :
  (table_at [a0; a1; a2; a3; a4; a5] i = None <-> i < 0 \/ 6 <= i)
  /\ (forall x, table_at [a0; a1; a2; a3; a4; a5] i = Some x ->
        0 <= i < 6 /\ [a0; a1; a2; a3; a4; a5] !! Z.to_nat i = Some x).
Proof.
  unfold table_at. destruct (i <? 0) eqn:E; zbool.
  - split; [split; [lia | reflexivity] | intros x H; discriminate H].
  - split.
    + rewrite lookup_ge_None. simpl. lia.
    + intros x H. split; [| exact H].
      apply lookup_lt_Some in H. simpl in H. lia.
Qed.

Lemma pinMask_Some (pin m : Z) :
  pinMask pin = Some m ->
  0 <= Z.rem pin 8 <= 7 /\ m = 2 ^ Z.rem pin 8.
Proof.
  unfold pinMask. destruct (Z.rem pin 8 <? 0) eqn:E; [discriminate |].
  intros H. injection H as <-. zbool.
  split; [Z.quot_rem_to_equations; lia | apply Z.shiftl_1_l].
Qed.

Lemma pow2_bounds (k : Z) : 0 <= k <= 7 -> 1 <= 2 ^ k <= 128.
Proof.
  intros Hk. split.
  - change 1 with (2 ^ 0). apply Z.pow_le_mono_r; lia.
  - change 128 with (2 ^ 7). apply Z.pow_le_mono_r; lia.
Qed.

Lemma portBase_None (pin : PinId) :
  portBase pin = None <-> pin <= -8 \/ 48 <= pin.
Proof.
  unfold portBase, ports. rewrite (proj1 (table_at_6 _ _ _ _ _ _ _)).
  Z.quot_rem_to_equations. lia.
Qed.

Lemma peripheral_None (pin : PinId) :
  peripheral pin = None <-> pin <= -8 \/ 48 <= pin.
Proof.
  unfold peripheral, portPeripherals.
  rewrite (proj1 (table_at_6 _ _ _ _ _ _ _)).
  Z.quot_rem_to_equations. lia.
Qed.

Lemma pinMask_None (pin : PinId) :
  pinMask pin = None <-> pin < 0 /\ Z.rem pin 8 <> 0.
Proof.
  unfold pinMask. destruct (Z.rem pin 8 <? 0) eqn:E; zbool.
  - split; [intros _ | reflexivity]. Z.quot_rem_to_equations. lia.
  - split; [discriminate |]. intros H. Z.quot_rem_to_equations. lia.
Qed.

Lemma pinMask_log (pin m : Z) :
  pinMask pin = Some m ->
  1 <= m <= 128 /\ m = 2 ^ Z.log2 m /\ Z.log2 m = Z.rem pin 8.
Proof.
  intros Hm. destruct (pinMask_Some pin m Hm) as (Hk & ->).
  rewrite Z.log2_pow2 by lia.
  split; [apply pow2_bounds; exact Hk |]. split; reflexivity.
Qed.

Lemma pin_in_range (pin : PinId) :
  0 <= pin < 48 ->
  exists pb per,
    portBase pin = Some pb /\ peripheral pin = Some per
    /\ pinMask pin = Some (2 ^ (pin mod 8))
    /\ ports !! Z.to_nat (pin / 8) = Some pb
    /\ portPeripherals !! Z.to_nat (pin / 8) = Some per.
Proof.
  intros Hpin.
  destruct (portBase pin) as [pb |] eqn:Hpb;
    [| apply portBase_None in Hpb; lia].
  destruct (peripheral pin) as [per |] eqn:Hper;
    [| apply peripheral_None in Hper; lia].
  destruct (pinMask pin) as [m |] eqn:Hm;
    [| apply pinMask_None in Hm; lia].
  exists pb, per. split; [reflexivity |]. split; [reflexivity |].
  destruct (pinMask_Some pin m Hm) as (_ & ->).
  rewrite Z.rem_mod_nonneg by lia.
  split; [reflexivity |].
  unfold portBase in Hpb. unfold peripheral in Hper.
  apply (proj2 (table_at_6 _ _ _ _ _ _ _)) in Hpb.
  apply (proj2 (table_at_6 _ _ _ _ _ _ _)) in Hper.
  rewrite Z.quot_div_nonneg in Hpb, Hper by lia.
  split; [apply Hpb | apply Hper].
Qed.

(** X5. The pin macros split a pin number into a port (pin / 8, an index
    into the six-entry tables) and a one-bit mask (1 << pin % 8).  Both are
    defined exactly for the pins 0..47: from 48 on and from -8 down the
    table index is outside the tables, and for -7..-1 the shift count is
    negative.  A mask is a single bit between 1 and 128, the peripheral is
    taken at the same index as the port, and port index and mask together
    give the pin number back. *)
Theorem Stellaris_pin_macros (pin : PinId) :
  ((exists pb m, portBase pin = Some pb /\ pinMask pin = Some m)
   <-> 0 <= pin < 48)
  /\ (portBase pin = None <-> pin <= -8 \/ 48 <= pin)
  /\ (peripheral pin = None <-> portBase pin = None)
  /\ (pinMask pin = None <-> pin < 0 /\ Z.rem pin 8 <> 0)
  /\ (forall m, pinMask pin = Some m ->
        1 <= m <= 128 /\ m = 2 ^ Z.log2 m /\ Z.log2 m = Z.rem pin 8)
  /\ (0 <= pin < 48 ->
      exists pb per,
        portBase pin = Some pb /\ peripheral pin = Some per
        /\ ports !! Z.to_nat (pin / 8) = Some pb
        /\ portPeripherals !! Z.to_nat (pin / 8) = Some per)
  /\ (forall m, 0 <= pin -> pinMask pin = Some m ->
        8 * Z.quot pin 8 + Z.log2 m = pin)
  /\ (forall pin' : PinId,
        0 <= pin -> 0 <= pin' ->
        Z.quot pin 8 = Z.quot pin' 8 -> pinMask pin = pinMask pin' ->
        pin = pin').
Proof.
  split.
  { split.
    - intros (pb & m & Hpb & Hm).
      assert (H1 : ~ (pin <= -8 \/ 48 <= pin)).
      { intros H. apply portBase_None in H. congruence. }
      assert (H2 : ~ (pin < 0 /\ Z.rem pin 8 <> 0)).
      { intros H. apply pinMask_None in H. congruence. }
      Z.quot_rem_to_equations. lia.
    - intros Hpin.
      destruct (pin_in_range pin Hpin) as (pb & per & Hpb & _ & Hm & _).
      exists pb, (2 ^ (pin mod 8)). split; assumption. }
  split; [apply portBase_None |].
  split; [rewrite peripheral_None, portBase_None; reflexivity |].
  split; [apply pinMask_None |].
  split; [apply pinMask_log |].
  split.
  { intros Hpin.
    destruct (pin_in_range pin Hpin) as (pb & per & Hpb & Hper & _ & H1 & H2).
    exists pb, per. tauto. }
  split.
  { intros m Hpin Hm. destruct (pinMask_log pin m Hm) as (_ & _ & ->).
    Z.quot_rem_to_equations. lia. }
  intros pin' Hpin Hpin' Hq Hm.
  destruct (pinMask pin) as [m |] eqn:Hm1;
    [| apply pinMask_None in Hm1; lia].
  symmetry in Hm.
  destruct (pinMask_log pin m Hm1) as (_ & _ & H1).
  destruct (pinMask_log pin' m Hm) as (_ & _ & H2).
  Z.quot_rem_to_equations. lia.
Qed.

(** X6. [DigitalWrite] on a pin 0..47 makes exactly one driver call,
    [GPIOPinWrite] on the pin's port with the pin's one-bit mask, and the
    value written is the mask for true and 0 for false: no bit outside the
    mask is written.  It changes nothing in the IO object and reports
    nothing.  For any other pin number the call has no defined result. *)
Theorem StellarisIO_DigitalWrite_one_bit (pin : PinId) (val : bool)
  (s : StellarisIO.t) :
  (DigitalWrite pin val s = None <-> ~ 0 <= pin < 48)
  /\ (forall s' calls,
        DigitalWrite pin val s = Some (s', calls) ->
        s' = s
        /\ exists pb m v,
             calls = [GPIOPinWrite pb m v]
             /\ ports !! Z.to_nat (pin / 8) = Some pb
             /\ m = 2 ^ (pin mod 8)
             /\ 1 <= m <= 128
             /\ v = (if val then m else 0)
             /\ Z.land v m = v
             /\ (v <> 0 <-> val = true)).
Proof.
  destruct (Z_le_gt_dec 0 pin) as [Hlo |];
    [destruct (Z_lt_le_dec pin 48) as [Hhi |] |].
  - destruct (pin_in_range pin (conj Hlo Hhi))
      as (pb & per & Hpb & _ & Hm & Hports & _).
    unfold DigitalWrite. rewrite Hpb, Hm.
    split; [split; [discriminate | intros H; lia] |].
    intros s' calls H. injection H as <- <-.
    split; [reflexivity |].
    assert (Hb : 1 <= 2 ^ (pin mod 8) <= 128).
    { apply pow2_bounds. pose proof (Z.mod_pos_bound pin 8). lia. }
    exists pb, (2 ^ (pin mod 8)), (if val then 2 ^ (pin mod 8) else 0).
    split; [reflexivity |]. split; [exact Hports |].
    split; [reflexivity |]. split; [exact Hb |]. split; [reflexivity |].
    destruct val.
    + split; [apply Z.land_diag |]. split; [reflexivity | lia].
    + split; [apply Z.land_0_l |]. split; [lia | discriminate].
  - assert (Hpb : portBase pin = None) by (apply portBase_None; lia).
    unfold DigitalWrite. rewrite Hpb.
    split; [split; [lia | reflexivity] |].
    intros s' calls H. discriminate H.
  - unfold DigitalWrite.
    destruct (portBase pin) as [pb |] eqn:Hpb;
      [destruct (pinMask pin) as [m |] eqn:Hm |].
    + exfalso.
      assert (H1 : ~ (pin <= -8 \/ 48 <= pin)).
      { intros H. apply portBase_None in H. congruence. }
      assert (H2 : ~ (pin < 0 /\ Z.rem pin 8 <> 0)).
      { intros H. apply pinMask_None in H. congruence. }
      Z.quot_rem_to_equations. lia.
    + split; [split; [lia | reflexivity] |].
      intros s' calls H. discriminate H.
    + split; [split; [lia | reflexivity] |].
      intros s' calls H. discriminate H.
Qed.

(** X7. [PinSetMode] on a pin 0..47 always enables the peripheral of the
    pin's port first (port and peripheral come from the same table index);
    for InputPin and OutputPin it then configures exactly the pin's bit of
    that port and reports nothing; for any other mode value it configures
    nothing and only reports DebugIoOperationNotImplemented. *)
Theorem StellarisIO_PinSetMode_enables_then_configures (pin : PinId)
  (mode : Z) (s : StellarisIO.t) :
  0 <= pin < 48 ->
  exists pb per s' calls,
    ports !! Z.to_nat (pin / 8) = Some pb
    /\ portPeripherals !! Z.to_nat (pin / 8) = Some per
    /\ PinSetMode pin mode s = Some (s', calls)
    /\ hd_error calls = Some (MAP_SysCtlPeripheralEnable per)
    /\ (mode = PinMode_value IO.InputPin ->
        s' = s
        /\ calls = [MAP_SysCtlPeripheralEnable per;
                    MAP_GPIOPinTypeGPIOInput pb (2 ^ (pin mod 8))])
    /\ (mode = PinMode_value IO.OutputPin ->
        s' = s
        /\ calls = [MAP_SysCtlPeripheralEnable per;
                    MAP_GPIOPinTypeGPIOOutput pb (2 ^ (pin mod 8))])
    /\ (mode <> PinMode_value IO.InputPin ->
        mode <> PinMode_value IO.OutputPin ->
        onlyReportsNotImplemented s s'
        /\ calls = [MAP_SysCtlPeripheralEnable per]).
Proof.
  intros Hpin.
  destruct (pin_in_range pin Hpin)
    as (pb & per & Hpb & Hper & Hm & Hports & Hpers).
  exists pb, per. unfold PinSetMode. rewrite Hper, Hpb, Hm. simpl.
  destruct (mode =? 0) eqn:E0; [| destruct (mode =? 1) eqn:E1]; zbool;
    eexists; eexists;
    (split; [exact Hports |]); (split; [exact Hpers |]);
    (split; [reflexivity |]); (split; [reflexivity |]);
    (split; [intros H; first [lia | split; reflexivity] |]);
    (split; [intros H; first [lia | split; reflexivity] |]);
    intros H0 H1; first [lia | idtac].
  split; [apply notImplemented_onlyReports | reflexivity].
Qed.
End PinFacts.

(** X7, witness: pin 13 (port B, bit 5) becomes an output. *)
Lemma StellarisIO_PinSetMode_pin13 :
  0 <= 13 < 48
  /\ StellarisHw.PinSetMode (dl := sample_driverlib)
       (cf := sample_commandformat) 13 (PinMode_value IO.OutputPin)
       (StellarisIO.new None 0)
     = Some (StellarisIO.new None 0,
             [MAP_SysCtlPeripheralEnable 0xf0000801;
              MAP_GPIOPinTypeGPIOOutput 0x40005000 32]).
Proof.
  split; [lia |].
  destruct (StellarisIO_PinSetMode_enables_then_configures
              (dl := sample_driverlib) (cf := sample_commandformat)
              13 (PinMode_value IO.OutputPin) (StellarisIO.new None 0)
              ltac:(lia))
    as (pb & per & s' & calls & Hpb & Hper & Hrun & _ & _ & Hout & _).
  destruct (Hout eq_refl) as (-> & ->).
  rewrite Hrun.
  vm_compute in Hpb. vm_compute in Hper.
  injection Hpb as <-. injection Hper as <-. reflexivity.
Defined.

Section SerialFacts.
Context {dl : Driverlib}.
Import StellarisHw.

(** X8. The Stellaris backend has one serial port, device 0.  For any
    other device number nothing is called in the driver library,
    [SerialDataAvailable] and [SerialRead] return 0 and nothing is
    reported.  For every device the IO object stays as it is, the baud rate
    has no influence on [SerialBegin], and [SerialRead] returns a value in
    0..255; on device 0 every call goes to UART0, [SerialRead] returns the
    driver's answer modulo 256, [SerialDataAvailable] asks the driver
    without taking a byte, and [SerialWrite] is one [UARTCharPut] of the
    argument modulo 256, a value in 0..255. *)
Theorem StellarisIO_serial_device_0_only (serialDevice : Z)
  (u : UartAnswers) (s : StellarisIO.t) :
  (serialDevice <> 0 ->
   (forall baudrate, SerialBegin serialDevice baudrate s = (s, []))
   /\ SerialDataAvailable serialDevice u s = (s, 0, [])
   /\ SerialRead serialDevice u s = (s, 0, [])
   /\ (forall b, SerialWrite serialDevice b s = (s, [])))
  /\ (forall baudrate baudrate',
        SerialBegin serialDevice baudrate s
        = SerialBegin serialDevice baudrate' s)
  /\ (forall baudrate, fst (SerialBegin serialDevice baudrate s) = s)
  /\ fst (fst (SerialDataAvailable serialDevice u s)) = s
  /\ fst (fst (SerialRead serialDevice u s)) = s
  /\ (forall b, fst (SerialWrite serialDevice b s) = s)
  /\ 0 <= snd (fst (SerialRead serialDevice u s)) <= 255
  /\ (serialDevice = 0 ->
      snd (fst (SerialRead serialDevice u s)) = charGet u UART0_BASE mod 256
      /\ snd (SerialRead serialDevice u s)
         = [UARTCharGetNonBlocking UART0_BASE]
      /\ SerialDataAvailable serialDevice u s
         = (s, charsAvail u UART0_BASE, [UARTCharsAvail UART0_BASE])
      /\ (forall b,
            snd (SerialWrite serialDevice b s)
            = [UARTCharPut UART0_BASE (b mod 256)]
            /\ 0 <= b mod 256 <= 255
            /\ SerialWrite serialDevice (b + 256) s
               = SerialWrite serialDevice b s)).
Proof.
  unfold SerialBegin, SerialDataAvailable, SerialRead, SerialWrite.
  destruct (serialDevice =? 0) eqn:E; zbool.
  - split; [intros H; lia |].
    do 5 (split; [reflexivity |]). cbn [fst snd].
    split.
    { unfold wrap_unsigned.
      pose proof (Z.mod_pos_bound (charGet u UART0_BASE) (2 ^ 8)
                    ltac:(lia)) as H.
      change (2 ^ 8) with 256 in *. lia. }
    intros _. do 3 (split; [reflexivity |]). intros b.
    split; [reflexivity |].
    split; [pose proof (Z.mod_pos_bound b 256 ltac:(lia)); lia |].
    unfold wrap_unsigned. change (2 ^ 8) with 256.
    replace (b + 256) with (b + 1 * 256) by lia.
    rewrite Z.mod_add by lia. reflexivity.
  - split; [intros _; repeat split |].
    do 5 (split; [reflexivity |]). cbn [fst snd].
    split; [lia |]. intros H. lia.
Qed.
End SerialFacts.

Section ClockFacts.
Context {cf : CommandFormat} {tg : Target}.
Import StellarisHw.

Lemma pow2_double (B : Z) : 1 <= B -> 2 ^ B = 2 * 2 ^ (B - 1) /\ 0 < 2 ^ (B - 1).
Proof.
  intros HB. split.
  - replace B with (Z.succ (B - 1)) at 1 by lia. apply Z.pow_succ_r. lia.
  - apply Z.pow_pos_nonneg; lia.
Qed.

Lemma to_long_low (z : Z) :
  1 <= LONG_BITS -> 0 <= z < 2 ^ (LONG_BITS - 1) -> to_long z = z.
Proof.
  intros HB Hz. unfold to_long, wrap_signed.
  destruct (pow2_double LONG_BITS HB) as (H2 & Hpos).
  rewrite Z.mod_small by lia. lia.
Qed.

Lemma to_long_high (z : Z) :
  1 <= LONG_BITS -> 2 ^ (LONG_BITS - 1) <= z < 2 ^ LONG_BITS ->
  to_long z = z - 2 ^ LONG_BITS.
Proof.
  intros HB Hz. unfold to_long, wrap_signed.
  destruct (pow2_double LONG_BITS HB) as (H2 & Hpos).
  rewrite (mod_wrap (2 ^ LONG_BITS) (z + 2 ^ (LONG_BITS - 1))) by lia.
  destruct (z + 2 ^ (LONG_BITS - 1) <? 0) eqn:E0;
    destruct (z + 2 ^ (LONG_BITS - 1) <? 2 ^ LONG_BITS) eqn:E1;
    zbool; lia.
Qed.

(** X9. The two Stellaris clocks read the same tick counter and leave the
    IO object as it is.  [TimerCurrentMs] is the counter divided by 1000,
    for every value of the counter.  [TimerCurrentMicros] is the counter
    itself while it is below 2^(LONG_BITS-1), and then lies in the
    millisecond the other clock shows: ms * 1000 <= us < ms * 1000 + 1000;
    through the method table the call returns that value and never
    overflows.  From 2^(LONG_BITS-1) on the microsecond clock is negative
    while the millisecond clock is not. *)
Theorem StellarisIO_clocks (s : StellarisIO.t) :
  1 <= LONG_BITS ->
  0 <= StellarisIO.g_ulSysTickCount (self s) < 2 ^ LONG_BITS ->
  let ticks := StellarisIO.g_ulSysTickCount (self s) in
  let ms := snd (StellarisIO.TimerCurrentMs s) in
  let us := snd (StellarisIO.TimerCurrentMicros s) in
  fst (StellarisIO.TimerCurrentMs s) = s
  /\ fst (StellarisIO.TimerCurrentMicros s) = s
  /\ ms = ticks / 1000
  /\ 0 <= ms
  /\ (ticks < 2 ^ (LONG_BITS - 1) ->
      us = ticks
      /\ ms * 1000 <= us < ms * 1000 + 1000
      /\ IO.TimerCurrentMicros StellarisIO.methods s = (s, Some ticks))
  /\ (2 ^ (LONG_BITS - 1) <= ticks ->
      us = ticks - 2 ^ LONG_BITS /\ us < 0).
Proof.
  intros HB Hticks ticks ms us. subst ms us. simpl. fold ticks.
  destruct (pow2_double LONG_BITS HB) as (H2 & Hpos).
  assert (Hdiv : 0 <= ticks / 1000 < 2 ^ (LONG_BITS - 1)).
  { split; [apply Z.div_pos; lia |].
    apply Z.div_lt_upper_bound; lia. }
  split; [reflexivity |]. split; [reflexivity |].
  split; [apply to_long_low; assumption |].
  split; [rewrite to_long_low by assumption; lia |].
  split.
  - intros Hlow. rewrite !to_long_low by lia.
    split; [reflexivity |].
    split.
    { pose proof (Z.mod_pos_bound ticks 1000 ltac:(lia)).
      pose proof (Z.div_mod ticks 1000 ltac:(lia)). lia. }
    unfold IO.TimerCurrentMicros, StellarisIO.methods,
      StellarisIO.TimerCurrentMicros. simpl. fold ticks.
    rewrite to_long_low by lia. reflexivity.
  - intros Hhigh. rewrite to_long_high by lia. lia.
Qed.

Lemma ticks_after (n : nat) (st : StellarisIO.State) :
  1 <= LONG_BITS ->
  0 <= StellarisIO.g_ulSysTickCount st < 2 ^ LONG_BITS ->
  StellarisIO.g_ulSysTickCount (Nat.iter n SysTickIntHandler st)
  = (StellarisIO.g_ulSysTickCount st + Z.of_nat n) mod 2 ^ LONG_BITS
  /\ StellarisIO.magic (Nat.iter n SysTickIntHandler st)
     = StellarisIO.magic st.
Proof.
  intros HB Hst.
  destruct (pow2_double LONG_BITS HB) as (H2 & Hpos).
  induction n as [| n IH].
  - simpl. rewrite Z.add_0_r, Z.mod_small by lia. split; reflexivity.
  - rewrite Nat.iter_succ. destruct IH as (IHt & IHm).
    unfold SysTickIntHandler at 1. simpl. rewrite IHt, IHm.
    split; [| reflexivity].
    unfold wrap_unsigned. rewrite Zplus_mod_idemp_l. f_equal. lia.
Qed.

(** X10. Every SysTick interrupt adds one to the tick counter modulo
    2^LONG_BITS and touches nothing else: after [n] interrupts the counter
    is (count + n) mod 2^LONG_BITS, so it is back at its value after
    2^LONG_BITS interrupts, and while count + n stays below
    2^(LONG_BITS-1) the microsecond clock has advanced by exactly [n] and
    the millisecond clock shows (count + n) / 1000. *)
Theorem StellarisIO_SysTick_counts (n : nat) (s : StellarisIO.t) :
  1 <= LONG_BITS ->
  0 <= StellarisIO.g_ulSysTickCount (self s) < 2 ^ LONG_BITS ->
  let ticks := StellarisIO.g_ulSysTickCount (self s) in
  let s' := afterTicks n s in
  StellarisIO.g_ulSysTickCount (self s')
  = (ticks + Z.of_nat n) mod 2 ^ LONG_BITS
  /\ StellarisIO.magic (self s') = StellarisIO.magic (self s)
  /\ debug s' = debug s
  /\ (Z.of_nat n = 2 ^ LONG_BITS ->
      StellarisIO.g_ulSysTickCount (self s') = ticks)
  /\ (ticks + Z.of_nat n < 2 ^ (LONG_BITS - 1) ->
      snd (StellarisIO.TimerCurrentMicros s')
      = snd (StellarisIO.TimerCurrentMicros s) + Z.of_nat n
      /\ snd (StellarisIO.TimerCurrentMs s') = (ticks + Z.of_nat n) / 1000).
Proof.
  intros HB Hticks ticks s'. subst s'.
  destruct (pow2_double LONG_BITS HB) as (H2 & Hpos).
  destruct (ticks_after n (self s) HB Hticks) as (Ht & Hm).
  fold ticks in Ht. unfold afterTicks. simpl.
  split; [exact Ht |]. split; [exact Hm |]. split; [reflexivity |].
  split.
  { intros Hn. rewrite Ht, Hn.
    replace (ticks + 2 ^ LONG_BITS) with (ticks + 1 * 2 ^ LONG_BITS) by lia.
    rewrite Z.mod_add by lia. apply Z.mod_small. exact Hticks. }
  intros Hlow. rewrite Ht. fold ticks.
  rewrite (Z.mod_small (ticks + Z.of_nat n)) by lia.
  rewrite !to_long_low by lia.
  split; [reflexivity |].
  apply to_long_low; [exact HB |].
  split; [apply Z.div_pos; lia | apply Z.div_lt_upper_bound; lia].
Qed.
End ClockFacts.

(** X9, witness: 5500 ticks on a 32 bit target are 5 ms and 5500 us. *)
Lemma StellarisIO_clocks_5500 :
  (1 <= LONG_BITS (Target := target32)
   /\ 0 <= StellarisIO.g_ulSysTickCount (self (StellarisIO.new None 5500))
      < 2 ^ LONG_BITS (Target := target32))
  /\ snd (StellarisIO.TimerCurrentMs (tg := target32)
            (StellarisIO.new None 5500)) = 5
  /\ snd (StellarisIO.TimerCurrentMicros (tg := target32)
            (StellarisIO.new None 5500)) = 5500.
Proof.
  assert (H1 : 1 <= LONG_BITS (Target := target32)) by (vm_compute; discriminate).
  assert (H2 : 0 <= StellarisIO.g_ulSysTickCount
                      (self (StellarisIO.new None 5500))
               < 2 ^ LONG_BITS (Target := target32)).
  { vm_compute. split; [discriminate | reflexivity]. }
  split; [split; assumption |].
  destruct (StellarisIO_clocks (cf := sample_commandformat) (tg := target32)
              (StellarisIO.new None 5500) H1 H2)
    as (_ & _ & Hms & _ & Hlow & _).
  split; [exact Hms |].
  apply Hlow. vm_compute. reflexivity.
Defined.

(** X10, witness: 1500 interrupts after a fresh start on a 32 bit target. *)
Lemma StellarisIO_SysTick_1500 :
  (1 <= LONG_BITS (Target := target32)
   /\ 0 <= StellarisIO.g_ulSysTickCount (self (StellarisIO.new None 0))
      < 2 ^ LONG_BITS (Target := target32))
  /\ StellarisIO.g_ulSysTickCount
       (self (StellarisHw.afterTicks (tg := target32) 1500
                (StellarisIO.new None 0)))
     = 1500 mod 2 ^ 32
  /\ snd (StellarisIO.TimerCurrentMs (tg := target32)
            (StellarisHw.afterTicks (tg := target32) 1500
               (StellarisIO.new None 0))) = 1500 / 1000.
Proof.
  assert (H1 : 1 <= LONG_BITS (Target := target32)) by (vm_compute; discriminate).
  assert (H2 : 0 <= StellarisIO.g_ulSysTickCount
                      (self (StellarisIO.new None 0))
               < 2 ^ LONG_BITS (Target := target32)).
  { vm_compute. split; [discriminate | reflexivity]. }
  split; [split; assumption |].
  destruct (StellarisIO_SysTick_counts (tg := target32) 1500
              (StellarisIO.new None 0) H1 H2) as (Hc & _ & _ & _ & Hlow).
  split; [exact Hc |].
  apply Hlow. vm_compute. reflexivity.
Defined.

Section OverflowFacts.
(** X11. On a target with a 32 bit [long], the microsecond clock of the
    base class has a value exactly while the millisecond clock is between
    -2147483 and 2147483: beyond 2147483 ms (about 35 minutes 47 seconds)
    the multiplication by 1000 overflows. *)
Theorem IO_TimerCurrentMicros_overflows_32bit {D : Type}
  (vt : IO.Methods D) (s : IOState D) :
  IO.TimerCurrentMicros_override vt = None ->
  let ms := snd (IO.TimerCurrentMs vt s) in
  (snd (IO.TimerCurrentMicros (tg := target32) vt s) = None
   <-> ms < -2147483 \/ 2147483 < ms)
  /\ (snd (IO.TimerCurrentMicros (tg := target32) vt s) = Some (ms * 1000)
      <-> -2147483 <= ms <= 2147483).
Proof.
  intros Hbase ms. subst ms.
  unfold IO.TimerCurrentMicros, IO.base_TimerCurrentMicros.
  rewrite Hbase. destruct (IO.TimerCurrentMs vt s) as [s' ms].
  cbn [fst snd]. unfold long_mul.
  assert (Hin : in_long (tg := target32) (ms * 1000) = true
                <-> -2147483 <= ms <= 2147483).
  { unfold in_long, LONG_MIN, LONG_MAX.
    change (2 ^ (LONG_BITS (Target := target32) - 1)) with 2147483648.
    rewrite andb_true_iff, Z.leb_le, Z.leb_le. lia. }
  destruct (in_long (tg := target32) (ms * 1000)).
  - assert (-2147483 <= ms <= 2147483) by (apply Hin; reflexivity).
    split; split; intros H'; try discriminate H'; try reflexivity; lia.
  - assert (~ (-2147483 <= ms <= 2147483)).
    { intros Hr. apply Hin in Hr. discriminate Hr. }
    split; split; intros H'; try discriminate H'; try reflexivity; lia.
Qed.
End OverflowFacts.

(** X11, witness: a backend whose millisecond clock shows 2147484 has no
    microsecond value on a 32 bit target; at 2147483 it still has one. *)
Lemma IO_TimerCurrentMicros_overflow_example :
  IO.TimerCurrentMicros_override clock_io = None
  /\ snd (IO.TimerCurrentMicros (tg := target32) clock_io
            {| debug := None; self := 2147484 |}) = None
  /\ snd (IO.TimerCurrentMicros (tg := target32) clock_io
            {| debug := None; self := 2147483 |}) = Some 2147483000.
Proof.
  split; [reflexivity |].
  split.
  - apply (proj1 (IO_TimerCurrentMicros_overflows_32bit clock_io
                    {| debug := None; self := 2147484 |} eq_refl)).
    right. vm_compute. reflexivity.
  - apply (proj2 (IO_TimerCurrentMicros_overflows_32bit clock_io
                    {| debug := None; self := 2147483 |} eq_refl)).
    vm_compute. split; discriminate.
Defined.

Section ReportFacts.
Context {cf : CommandFormat}.

Lemma callUnimplemented_onlyReports (c : UnimplementedCall)
  (s : StellarisIO.t) :
  onlyReportsNotImplemented s (callUnimplemented c s).
Proof. destruct c; simpl; apply notImplemented_onlyReports. Qed.

(** X12. Reports of unimplemented primitives are neither lost nor
    reordered nor do they touch the device state: after any sequence of
    calls of DigitalRead, AnalogRead, PwmWrite and AttachExternalInterrupt
    the handler of the IO object has received one
    DebugIoOperationNotImplemented report per call after what it had
    before, and an IO object without handler still has none. *)
Theorem StellarisIO_reports_accumulate (cs : list UnimplementedCall)
  (s : StellarisIO.t) :
  self (callAllUnimplemented cs s) = self s
  /\ debug (callAllUnimplemented cs s)
     = match debug s with
       | Some h =>
           Some (h ++ replicate (length cs)
                        (EmitDebug DebugLevelError
                           DebugIoOperationNotImplemented))
       | None => None
       end
  /\ (debug (callAllUnimplemented cs s) = None <-> debug s = None).
Proof.
  assert (H : self (callAllUnimplemented cs s) = self s
              /\ debug (callAllUnimplemented cs s)
                 = match debug s with
                   | Some h =>
                       Some (h ++ replicate (length cs)
                                    (EmitDebug DebugLevelError
                                       DebugIoOperationNotImplemented))
                   | None => None
                   end).
  { revert s. induction cs as [| c cs IH]; intros s.
    - simpl. destruct (debug s); rewrite ?app_nil_r; split; reflexivity.
    - unfold callAllUnimplemented. simpl.
      fold (callAllUnimplemented cs (callUnimplemented c s)).
      destruct (IH (callUnimplemented c s)) as (IHs & IHd).
      destruct (callUnimplemented_onlyReports c s) as (Hs & Hd).
      rewrite IHs, IHd, Hs, Hd.
      split; [reflexivity |].
      destruct (debug s); [| reflexivity].
      rewrite <- app_assoc. reflexivity. }
  destruct H as (Hs & Hd). split; [exact Hs |]. split; [exact Hd |].
  rewrite Hd. destruct (debug s); split; intros H; try discriminate H;
    reflexivity.
Qed.
End ReportFacts.
